(** * gen_suite.py: batch rendering of SVG files to PNG

    A shallow embedding of [gen_suite.py]: the three functions of the script
    ([process_file], [find_files], [main]) over a model of what they call:
    pathlib's pure path operations, a directory tree with its listing order,
    the standard streams, and the external renderer [cairosvg.svg2png], which
    is a parameter of the development.

    Conventions.
    - A path is the list of its components (pathlib's [parts]), relative to
      the root of the modelled tree.  Names are byte strings (UTF-8), so the
      byte-wise order of [String.compare] is Python's code point order.
    - Matching is the POSIX flavour of pathlib: case-sensitive.
    - An exception is represented by its message ([str(e)]); [sys.exit] is a
      separate outcome that [except Exception] does not catch.
    - [main] is [main()] from the line after [parser.parse_args()], on
      [args.input]; [main_argv] is the whole of it, with [argparse] as a
      parameter like the renderer, and [script] the module run as a script.
    - The standard streams take every text: [print] does not raise. *)

From Stdlib Require Import String Ascii List ZArith Lia Bool Arith.
From Stdlib Require Import Permutation Sorted DecimalString.
Import ListNotations.
Open Scope string_scope.
Open Scope list_scope.

(** ** pathlib: pure paths *)

Definition Path := list string.

(** [str(path)] *)
Definition path_str (p : Path) : string :=
  match p with
  | [] => "."
  | _ => String.concat "/" p
  end.

(** [path.name]: the final component, [''] for the empty path. *)
Definition name (p : Path) : string := last p "".

(** [path.parent] *)
Definition parent (p : Path) : Path := removelast p.

(** [str.rfind(c)]: the highest index of [c], or [-1]. *)
Fixpoint rfind (c : ascii) (s : string) : Z :=
  match s with
  | EmptyString => -1
  | String d s' =>
      let i := rfind c s' in
      if (0 <=? i)%Z then (i + 1)%Z
      else if Ascii.eqb d c then 0%Z else (-1)%Z
  end.

(** Whether [name.rfind('.')] splits the name: [0 < i < len(name) - 1]. *)
Definition splits (nm : string) (i : Z) : bool :=
  ((0 <? i) && (i <? Z.of_nat (String.length nm) - 1))%Z.

(** [name[i:]] and [name[:i]] for [0 <= i <= len(name)]. *)
Definition slice_from (i : Z) (nm : string) : string :=
  substring (Z.to_nat i) (String.length nm - Z.to_nat i) nm.

Definition slice_to (i : Z) (nm : string) : string :=
  substring 0 (Z.to_nat i) nm.

(** [path.suffix] *)
Definition suffix (p : Path) : string :=
  let nm := name p in
  let i := rfind "." nm in
  if splits nm i then slice_from i nm else "".

(** [path.stem] *)
Definition stem (p : Path) : string :=
  let nm := name p in
  let i := rfind "." nm in
  if splits nm i then slice_to i nm else nm.

(** [c in s] for a character. *)
Fixpoint contains (c : ascii) (s : string) : bool :=
  match s with
  | EmptyString => false
  | String d s' => Ascii.eqb d c || contains c s'
  end.

Definition startswith (c : ascii) (s : string) : bool :=
  match s with
  | String d _ => Ascii.eqb d c
  | EmptyString => false
  end.

Definition is_empty (s : string) : bool :=
  match s with EmptyString => true | _ => false end.

(** [repr(path)], for the message of [ValueError]. *)
Definition path_repr (p : Path) : string :=
  ("PosixPath('" ++ path_str p ++ "')")%string.

(** [path.with_suffix(suffix)]; [inl msg] is [ValueError(msg)]. *)
Definition with_suffix (p : Path) (sfx : string) : string + Path :=
  if contains "/" sfx then inl ("Invalid suffix '" ++ sfx ++ "'")%string
  else if (negb (is_empty sfx) && negb (startswith "." sfx)) || String.eqb sfx "."
  then inl ("Invalid suffix '" ++ sfx ++ "'")%string
  else
    let nm := name p in
    if is_empty nm then inl (path_repr p ++ " has an empty name")%string
    else
      let old_suffix := suffix p in
      let nm' :=
        if is_empty old_suffix then (nm ++ sfx)%string
        else (slice_to (Z.of_nat (String.length nm)
                        - Z.of_nat (String.length old_suffix)) nm ++ sfx)%string in
      inr (removelast p ++ [nm']).

(** ** Glob patterns

    The pattern language of [Path.rglob] restricted to literals, [?] and [*]
    (the script's pattern has no bracket class); the whole name must match. *)

Fixpoint fnmatch (pat : string) : string -> bool :=
  match pat with
  | EmptyString => fun s => is_empty s
  | String c pat' =>
      if Ascii.eqb c "*" then
        fix star (s : string) : bool :=
          fnmatch pat' s
          || match s with
             | EmptyString => false
             | String _ s' => star s'
             end
      else if Ascii.eqb c "?" then
        fun s => match s with
                 | EmptyString => false
                 | String _ s' => fnmatch pat' s'
                 end
      else
        fun s => match s with
                 | EmptyString => false
                 | String d s' => Ascii.eqb d c && fnmatch pat' s'
                 end
  end.

(** ** Ordering of paths and [sorted]

    [PurePath.__lt__] compares the lists of components; Python compares lists
    at the first position where they differ, a proper prefix being smaller. *)

Fixpoint path_ltb (p q : Path) : bool :=
  match p, q with
  | [], [] => false
  | [], _ :: _ => true
  | _ :: _, [] => false
  | a :: p', b :: q' => if String.eqb a b then path_ltb p' q' else String.ltb a b
  end.

(** [sorted] is stable and calls only [<]; an insertion from the right that
    keeps an element in front of those it is not greater than is such a
    sort. *)
Fixpoint insert (x : Path) (l : list Path) : list Path :=
  match l with
  | [] => [x]
  | y :: l' => if path_ltb y x then y :: insert x l' else x :: y :: l'
  end.

Definition sorted (l : list Path) : list Path := fold_right insert [] l.

(** ** The file system

    A directory keeps its entries in the order in which the operating system
    lists them ([os.scandir]); no order is promised. *)

#[warnings="-register-all"]
Inductive node : Type :=
| File (data : string)
| Dir (entries : list (string * node)).

Fixpoint find_entry (c : string) (es : list (string * node)) : option node :=
  match es with
  | [] => None
  | (c', n) :: es' => if String.eqb c' c then Some n else find_entry c es'
  end.

Fixpoint lookup (p : Path) (n : node) : option node :=
  match p with
  | [] => Some n
  | c :: p' =>
      match n with
      | File _ => None
      | Dir es =>
          match find_entry c es with
          | Some n' => lookup p' n'
          | None => None
          end
      end
  end.

(** [path.exists()], [path.is_dir()], [path.is_file()] *)
Definition path_exists (p : Path) (fs : node) : bool :=
  match lookup p fs with Some _ => true | None => false end.

Definition is_dir (p : Path) (fs : node) : bool :=
  match lookup p fs with Some (Dir _) => true | _ => false end.

Definition is_file (p : Path) (fs : node) : bool :=
  match lookup p fs with Some (File _) => true | _ => false end.

(** The content of the regular file at [p]. *)
Definition read (p : Path) (fs : node) : option string :=
  match lookup p fs with Some (File data) => Some data | _ => None end.

(** The relative paths of everything below a node, parents before children,
    siblings in listing order. *)
Fixpoint walk (n : node) : list Path :=
  match n with
  | File _ => []
  | Dir es =>
      flat_map (fun e => [fst e] :: map (cons (fst e)) (walk (snd e))) es
  end.

(** [list(path.rglob(pattern))] for a pattern of one component: every entry
    below [path], at any depth, whose name matches. *)
Definition rglob (fs : node) (dir : Path) (pattern : string) : list Path :=
  match lookup dir fs with
  | Some n =>
      map (app dir) (filter (fun rel => fnmatch pattern (name rel)) (walk n))
  | None => []
  end.

(** Two trees that hold the same entries and differ only in the order in
    which their directories list them (entries of one directory have
    different names). *)
Inductive relisted : node -> node -> Prop :=
| relisted_refl n : relisted n n
| relisted_trans n1 n2 n3 :
    relisted n1 n2 -> relisted n2 n3 -> relisted n1 n3
| relisted_dir es es' :
    relisted_entries es es' -> relisted (Dir es) (Dir es')
with relisted_entries
  : list (string * node) -> list (string * node) -> Prop :=
| relisted_nil : relisted_entries [] []
| relisted_skip c n n' es es' :
    relisted n n' -> relisted_entries es es' ->
    relisted_entries ((c, n) :: es) ((c, n') :: es')
| relisted_swap x y es :
    fst x <> fst y -> relisted_entries (x :: y :: es) (y :: x :: es)
| relisted_then es1 es2 es3 :
    relisted_entries es1 es2 -> relisted_entries es2 es3 ->
    relisted_entries es1 es3.

Scheme relisted_mut := Minimality for relisted Sort Prop
  with relisted_entries_mut := Minimality for relisted_entries Sort Prop.

Combined Scheme relisted_mutual from relisted_mut, relisted_entries_mut.

(** What is found at one path in two trees: nothing in both, or two nodes
    that differ in listing order only. *)
Definition same_node (o1 o2 : option node) : Prop :=
  match o1, o2 with
  | Some m1, Some m2 => relisted m1 m2
  | None, None => True
  | _, _ => False
  end.

Definition same_below (o1 o2 : option node) : Prop :=
  match o1, o2 with
  | Some m1, Some m2 =>
      relisted m1 m2 /\ forall p, same_node (lookup p m1) (lookup p m2)
  | None, None => True
  | _, _ => False
  end.

(** Changing the entries of the directory at [d]. *)
Fixpoint map_entry (c : string) (g : node -> node) (es : list (string * node))
  : list (string * node) :=
  match es with
  | [] => []
  | (c', n) :: es' =>
      if String.eqb c' c then (c', g n) :: es' else (c', n) :: map_entry c g es'
  end.

Fixpoint modify_dir (d : Path)
    (f : list (string * node) -> list (string * node)) (n : node) : node :=
  match d with
  | [] => match n with File _ => n | Dir es => Dir (f es) end
  | c :: d' =>
      match n with
      | File _ => n
      | Dir es => Dir (map_entry c (modify_dir d' f) es)
      end
  end.

(** Names are unique in a directory, so removing the entry named [c] is
    removing every entry of that name. *)
Definition remove_entry (c : string) (es : list (string * node))
  : list (string * node) :=
  filter (fun e => negb (String.eqb (fst e) c)) es.

Fixpoint set_entry (c : string) (n : node) (es : list (string * node))
  : list (string * node) :=
  match es with
  | [] => [(c, n)]
  | (c', n') :: es' =>
      if String.eqb c' c then (c, n) :: es' else (c', n') :: set_entry c n es'
  end.

Definition quoted (p : Path) : string := ("'" ++ path_str p ++ "'")%string.

(** [path.unlink()]; [inl msg] is the [OSError] raised. *)
Definition unlink (p : Path) (fs : node) : string + node :=
  match lookup p fs with
  | None => inl ("[Errno 2] No such file or directory: " ++ quoted p)%string
  | Some (Dir _) => inl ("[Errno 21] Is a directory: " ++ quoted p)%string
  | Some (File _) => inr (modify_dir (parent p) (remove_entry (name p)) fs)
  end.

(** Creating or replacing the regular file at [p] (what a renderer does with
    its [write_to] argument); [None] when it cannot be opened for writing. *)
Definition write_file (p : Path) (data : string) (fs : node) : option node :=
  match p with
  | [] => None
  | _ =>
      if is_dir (parent p) fs && negb (is_dir p fs)
      then Some (modify_dir (parent p) (set_entry (name p) (File data)) fs)
      else None
  end.

(** ** The world and the computations of the script *)

Inductive event : Type :=
| Stdout (line : string)
| Stderr (line : string)
| CallRglob (dir : Path) (pattern : string)
| CallUnlink (p : Path)
| CallSvg2png (url write_to : Path) (output_width output_height : Z).

Record World : Type := mkWorld { fs : node; log : list event }.

Definition emit (e : event) (w : World) : World :=
  mkWorld (fs w) (log w ++ [e]).

Definition set_fs (t : node) (w : World) : World := mkWorld t (log w).

Inductive outcome (A : Type) : Type :=
| Ret (a : A)
| Raise (msg : string)
| Exit (code : Z).
Arguments Ret {A} a.
Arguments Raise {A} msg.
Arguments Exit {A} code.

Definition M (A : Type) : Type := World -> outcome A * World.

Definition ret {A} (a : A) : M A := fun w => (Ret a, w).

Definition bind {A B} (m : M A) (k : A -> M B) : M B :=
  fun w =>
    match m w with
    | (Ret a, w') => k a w'
    | (Raise msg, w') => (Raise msg, w')
    | (Exit c, w') => (Exit c, w')
    end.

Notation "x <- m ;; k" := (bind m (fun x => k))
  (at level 61, m at next level, right associativity).
Notation "m ;;; k" := (bind m (fun _ => k))
  (at level 61, right associativity).

Definition raise {A} (msg : string) : M A := fun w => (Raise msg, w).

(** [sys.exit(code)] *)
Definition sys_exit {A} (code : Z) : M A := fun w => (Exit code, w).

(** [try: body  except Exception as e: handler(e)] *)
Definition try_except {A} (body : M A) (handler : string -> M A) : M A :=
  fun w =>
    match body w with
    | (Raise msg, w') => handler msg w'
    | r => r
    end.

Definition print (line : string) : M unit :=
  fun w => (Ret tt, emit (Stdout line) w).

Definition eprint (line : string) : M unit :=
  fun w => (Ret tt, emit (Stderr line) w).

Definition lift {A} (r : string + A) : M A :=
  match r with inl msg => raise msg | inr a => ret a end.

Definition exists_m (p : Path) : M bool := fun w => (Ret (path_exists p (fs w)), w).

Definition is_dir_m (p : Path) : M bool := fun w => (Ret (is_dir p (fs w)), w).

Definition unlink_m (p : Path) : M unit :=
  fun w =>
    let w1 := emit (CallUnlink p) w in
    match unlink p (fs w) with
    | inl msg => (Raise msg, w1)
    | inr t => (Ret tt, set_fs t w1)
    end.

Definition rglob_m (dir : Path) (pattern : string) : M (list Path) :=
  fun w => (Ret (rglob (fs w) dir pattern), emit (CallRglob dir pattern) w).

(** A [for] loop over a list, threading the local variables [s]. *)
Fixpoint for_each {A S} (l : list A) (body : A -> S -> M S) (s : S) : M S :=
  match l with
  | [] => ret s
  | a :: l' => s' <- body a s ;; for_each l' body s'
  end.

(** [str(n)] for an integer, and [s * n]. *)
Definition str_int (n : Z) : string := NilZero.string_of_int (Z.to_int n).

Fixpoint str_mul (s : string) (n : nat) : string :=
  match n with O => "" | S n' => (s ++ str_mul s n')%string end.

Definition nl : string := String (ascii_of_nat 10) "".

(** The result of a renderer call: the exception it raised, if any, and the
    tree it leaves. *)
Definition renderer : Type :=
  Path -> Path -> Z -> Z -> node -> option string * node.

Section Script.

(** [cairosvg.svg2png(url=..., write_to=..., output_width=...,
    output_height=...)].  The script passes [str(path)]; [str] is
    one-to-one on the paths of a tree, and the renderer is given the path. *)
Variable svg2png : renderer.

Definition svg2png_m (url write_to : Path) (output_width output_height : Z)
  : M unit :=
  fun w =>
    let w1 := emit (CallSvg2png url write_to output_width output_height) w in
    match svg2png url write_to output_width output_height (fs w) with
    | (Some msg, t) => (Raise msg, set_fs t w1)
    | (None, t) => (Ret tt, set_fs t w1)
    end.

(** The body of the [try] of [process_file]. *)
Definition process_file_try (input_file : Path) : M bool :=
  output_file <- lift (with_suffix input_file ".png") ;;
  present <- exists_m output_file ;;
  (if present then unlink_m output_file else ret tt) ;;;
  svg2png_m input_file output_file 200 200 ;;;
  print ("✓ Processed: " ++ path_str input_file)%string ;;;
  ret true.

(** Its [except Exception as e] clause. *)
Definition process_file_except (input_file : Path) (e : string) : M bool :=
  eprint ("Exception processing " ++ path_str input_file
          ++ ": " ++ e)%string ;;;
  ret false.

Definition process_file (input_file : Path) : M bool :=
  try_except (process_file_try input_file) (process_file_except input_file).

Definition find_files (input_dir : Path) : M (list Path) :=
  files <- rglob_m input_dir "*svg" ;;
  ret (sorted files).

(** The body of the loop of [main] on the locals [(successful, failed)]. *)
Definition tally (input_file : Path) (c : Z * Z) : M (Z * Z) :=
  ok <- process_file input_file ;;
  if ok then ret (fst c + 1, snd c)%Z else ret (fst c, snd c + 1)%Z.

Definition len {A} (l : list A) : Z := Z.of_nat (List.length l).

Definition main (input : Path) : M unit :=
  present <- exists_m input ;;
  (if negb present then
     eprint ("Error: Input directory does not exist: "
             ++ path_str input)%string ;;;
     sys_exit 1
   else ret tt) ;;;
  d <- is_dir_m input ;;
  (if negb d then
     eprint ("Error: Input path is not a directory: "
             ++ path_str input)%string ;;;
     sys_exit 1
   else ret tt) ;;;
  files_to_process <- find_files input ;;
  (match files_to_process with
   | [] => print ("No files found in " ++ path_str input)%string ;;; sys_exit 0
   | _ => ret tt
   end) ;;;
  print ("Found " ++ str_int (len files_to_process)
         ++ " file(s) to process")%string ;;;
  c <- for_each files_to_process tally (0, 0)%Z ;;
  print (nl ++ str_mul "=" 50)%string ;;;
  print "Processing complete:" ;;;
  print ("  Successful: " ++ str_int (fst c))%string ;;;
  print ("  Failed: " ++ str_int (snd c))%string ;;;
  print ("  Total: " ++ str_int (len files_to_process))%string ;;;
  print (str_mul "=" 50) ;;;
  if (0 <? snd c)%Z then sys_exit 1 else ret tt.

End Script.

(** The exit status of the process that ran [main]: [0] when [main] returns,
    the argument of [sys.exit], [1] for an uncaught exception. *)
Definition exit_status {A} (r : outcome A * World) : Z :=
  match fst r with
  | Ret _ => 0
  | Exit c => c
  | Raise _ => 1
  end.

(** ** Observations on a run *)

(** The two lines [process_file] prints. *)
Definition processed_line (f : Path) : string :=
  ("✓ Processed: " ++ path_str f)%string.

Definition exception_line (f : Path) (msg : string) : string :=
  ("Exception processing " ++ path_str f ++ ": " ++ msg)%string.

(** The line that reports the conversion of [f]. *)
Definition report_of (f : Path) (ok : bool) (e : event) : Prop :=
  if ok then e = Stdout (processed_line f)
  else exists msg, e = Stderr (exception_line f msg).

(** What [process_file] returns and prints for [f] once the renderer has
    returned normally ([None]) or raised. *)
Definition succeeded (e : option string) : bool :=
  match e with None => true | Some _ => false end.

Definition report_event (f : Path) (e : option string) : event :=
  match e with
  | None => Stdout (processed_line f)
  | Some msg => Stderr (exception_line f msg)
  end.

(** The external calls [process_file] may make for [f]. *)
Definition call_for (f : Path) (e : event) : Prop :=
  exists out, with_suffix f ".png" = inr out
              /\ (e = CallUnlink out \/ e = CallSvg2png f out 200 200).

(** A stretch of the log in which the files of a list are converted one
    after the other, in the order of the list: for each file its calls, then
    its report. *)
Inductive converted_in_order : list Path -> list bool -> list event -> Prop :=
| cio_nil : converted_in_order [] [] []
| cio_cons f ok calls e files oks rest :
    Forall (call_for f) calls ->
    report_of f ok e ->
    converted_in_order files oks rest ->
    converted_in_order (f :: files) (ok :: oks) (calls ++ e :: rest).

Definition count (b : bool) (l : list bool) : Z :=
  len (filter (Bool.eqb b) l).

(** The paths the renderer was asked to write, in order. *)
Definition write_targets (l : list event) : list Path :=
  flat_map (fun e => match e with
                     | CallSvg2png _ out _ _ => [out]
                     | _ => []
                     end) l.

(** The inputs the renderer was given, in order. *)
Definition rendered (l : list event) : list Path :=
  flat_map (fun e => match e with
                     | CallSvg2png url _ _ _ => [url]
                     | _ => []
                     end) l.

(** [p <= q] in the order [sorted] uses: not [q < p]. *)
Definition path_le (p q : Path) : Prop := path_ltb q p = false.

(** The derived output path of [f]: its stem followed by [.png], next to
    it. *)
Definition png_path (f : Path) : Path :=
  parent f ++ [(stem f ++ ".png")%string].

(** The files of [all] are drawings named [*.svg] that [valid] accepts, and
    no directory is in the way of their output. *)
Definition convertible (valid : string -> bool) (all : list Path) (t : node)
  : Prop :=
  forall f, In f all ->
    suffix f = ".svg"
    /\ (exists data, read f t = Some data /\ valid data = true)
    /\ is_dir (png_path f) t = false.

(** The events a run has added to the log of [w]. *)
Definition since (w w' : World) : list event :=
  skipn (List.length (log w)) (log w').

(** [s] ends with [tail]. *)
Definition ends_with (tail s : string) : Prop :=
  exists pre, s = (pre ++ tail)%string.

(** [s.lower()] on ASCII. *)
Definition lower_ascii (c : ascii) : ascii :=
  let n := nat_of_ascii c in
  if ((65 <=? n) && (n <=? 90))%nat then ascii_of_nat (n + 32) else c.

Fixpoint lower (s : string) : string :=
  match s with
  | EmptyString => EmptyString
  | String c s' => String (lower_ascii c) (lower s')
  end.

(** The lines of the summary [main] prints after the loop. *)
Definition summary (successful failed total : Z) : list event :=
  [ Stdout (nl ++ str_mul "=" 50)%string;
    Stdout "Processing complete:";
    Stdout ("  Successful: " ++ str_int successful)%string;
    Stdout ("  Failed: " ++ str_int failed)%string;
    Stdout ("  Total: " ++ str_int total)%string;
    Stdout (str_mul "=" 50) ].

Definition emits (l : list event) (w : World) : World :=
  mkWorld (fs w) (log w ++ l).

Section Conversions.

Variable svg2png : renderer.

(** The results of converting the files of a list one after the other from
    [w], and the world this leaves. *)
Fixpoint conversions (files : list Path) (w : World) : list bool * World :=
  match files with
  | [] => ([], w)
  | f :: files' =>
      let r := process_file svg2png f w in
      let rs := conversions files' (snd r) in
      ((match fst r with Ret true => true | _ => false end) :: fst rs, snd rs)
  end.

(** The run of [main] converts the files of [files], in this order, and
    calls the renderer for nothing else. *)
Definition processes_in_order (input : Path) (w : World)
    (files : list Path) : Prop :=
  exists results before seg after,
    since w (snd (main svg2png input w)) = before ++ seg ++ after
    /\ converted_in_order files results seg
    /\ rendered before = [] /\ rendered after = [].

End Conversions.

(** ** Sample data

    A renderer for the examples: it accepts the files whose content starts
    with [<svg] and writes a fixed image; anything else raises. *)

Definition no_such_file (p : Path) : string :=
  ("[Errno 2] No such file or directory: " ++ quoted p)%string.

Definition sample_svg2png : renderer :=
  fun url write_to _ _ t =>
    match lookup url t with
    | Some (File data) =>
        if prefix "<svg" data then
          match write_file write_to "PNG" t with
          | Some t' => (None, t')
          | None => (Some (no_such_file write_to), t)
          end
        else (Some "syntax error: line 1, column 0", t)
    | Some (Dir _) => (Some ("[Errno 21] Is a directory: " ++ quoted url)%string, t)
    | None => (Some (no_such_file url), t)
    end.

(** [good/] holds two drawings and the image of a previous run, [mixed/] a
    broken drawing (with an image of it from a previous run) between two good
    ones, [docs/] nothing to render. *)
Definition sample_tree : node :=
  Dir [ ("good", Dir [ ("b.svg", File "<svg><rect/></svg>");
                       ("a.png", File "previous");
                       ("a.svg", File "<svg><circle/></svg>") ]);
        ("mixed", Dir [ ("z.svg", File "<svg/>");
                        ("m.svg", File "not a drawing");
                        ("m.png", File "previous");
                        ("sub", Dir [ ("k.svg", File "<svg/>");
                                      ("K.SVG", File "<svg/>") ]) ]);
        ("docs", Dir [ ("readme.txt", File "text"); ("logo.SVG", File "<svg/>") ]);
        ("notes.txt", File "text") ].

(** The same entries as [sample_tree], listed in another order. *)
Definition sample_tree_relisted : node :=
  Dir [ ("notes.txt", File "text");
        ("mixed", Dir [ ("sub", Dir [ ("K.SVG", File "<svg/>");
                                      ("k.svg", File "<svg/>") ]);
                        ("m.svg", File "not a drawing");
                        ("z.svg", File "<svg/>");
                        ("m.png", File "previous") ]);
        ("docs", Dir [ ("logo.SVG", File "<svg/>"); ("readme.txt", File "text") ]);
        ("good", Dir [ ("a.svg", File "<svg><circle/></svg>");
                       ("a.png", File "previous");
                       ("b.svg", File "<svg><rect/></svg>") ]) ].

(** [d/] holds a text file without extension whose name happens to end in
    the letters [svg], and a directory named [svg] with one drawing in it. *)
Definition stray_tree : node :=
  Dir [ ("d", Dir [ ("svg", Dir [ ("logo.svg", File "<svg/>") ]);
                    ("notsvg", File "plain text") ]) ].

(** [d/] holds two text files and no drawing. *)
Definition plain_tree : node :=
  Dir [ ("d", Dir [ ("notsvg", File "plain text");
                    ("readme.txt", File "text") ]) ].

Definition start (t : node) : World := mkWorld t [].

(** ** The script as a whole, and further observations *)

(** The message of the import guard at the top of the module. *)
Definition import_hint : string :=
  "cairosvg is not installed. Please install it with 'pip install cairosvg'".

(** What [parser.parse_args()] does with the command line: it returns the
    namespace, whose one field [input] is a path; or, for [-h], writes the
    help text to standard output and exits with status 0; or, through
    [parser.error], writes usage and message to standard error and exits
    with status 2. *)
Inductive parsed : Type :=
| Parsed (input : Path)
| ParseHelp (text : string)
| ParseError (text : string).

(** [argparse] decides which of the three it is; like the renderer, it is a
    parameter. *)
Definition argument_parser : Type := list string -> parsed.

Section Module.

Variable svg2png : renderer.
Variable parse_args : argument_parser.

(** [main()] from its first line: the arguments are parsed, then [main]
    above runs on [args.input]. *)
Definition main_argv (argv : list string) : M unit :=
  match parse_args argv with
  | Parsed input => main svg2png input
  | ParseHelp text => print text ;;; sys_exit 0
  | ParseError text => eprint text ;;; sys_exit 2
  end.

(** The module run as a script: the guarded [import cairosvg], then
    [main()].  [cairosvg_installed] tells whether the import succeeds or
    raises [ImportError]; [argv] is [sys.argv[1:]]. *)
Definition script (cairosvg_installed : bool) (argv : list string) : M unit :=
  (if cairosvg_installed then ret tt
   else eprint import_hint ;;; sys_exit 1) ;;;
  main_argv argv.

End Module.

(** The texts of the [print] calls on each stream, one entry per call (a
    text may hold several lines: the first call of the summary prints an
    empty line and the rule), and the paths [unlink] was called on. *)
Definition stdout_prints (l : list event) : list string :=
  flat_map (fun e => match e with Stdout text => [text] | _ => [] end) l.

Definition stderr_prints (l : list event) : list string :=
  flat_map (fun e => match e with Stderr text => [text] | _ => [] end) l.

Definition unlinked (l : list event) : list Path :=
  flat_map (fun e => match e with CallUnlink p => [p] | _ => [] end) l.

(** A renderer call as the script makes them for the files of [files]. *)
Definition render_call_ok (files : list Path) (e : event) : Prop :=
  match e with
  | CallSvg2png url write_to width height =>
      In url files /\ with_suffix url ".png" = inr write_to
      /\ width = 200%Z /\ height = 200%Z
  | _ => True
  end.

(** A renderer that changes nothing but the file it is asked to write. *)
Definition writes_only_output (svg2png : renderer) : Prop :=
  forall (url out : Path) (t : node) (p : Path),
    p <> out -> read p (snd (svg2png url out 200%Z 200%Z t)) = read p t.

(** [d/] holds a drawing and, where its image would go, a directory. *)
Definition blocked_tree : node :=
  Dir [ ("d", Dir [ ("a.svg", File "<svg/>");
                    ("a.png", Dir [ ("old", File "x") ]) ]) ].

(** [tests/] holds one valid drawing, in a directory named [svg]. *)
Definition nested_tree : node :=
  Dir [ ("tests", Dir [ ("svg", Dir [ ("logo.svg", File "<svg/>") ]) ]) ].

(** A parser for the examples, for command lines that name a directory of
    the root by one component: no argument or more than one is an error,
    [-h] asks for the help. *)
Definition sample_parse_args : argument_parser :=
  fun argv =>
    match argv with
    | [] => ParseError "error: the following arguments are required: input"
    | [a] =>
        if String.eqb a "-h" || String.eqb a "--help" then ParseHelp "usage"
        else if startswith "-" a then ParseError "error: unrecognized arguments"
        else Parsed [a]
    | _ => ParseError "error: unrecognized arguments"
    end.

(** Two listings of one directory with two drawings. *)
Definition listing_ab : node :=
  Dir [ ("d", Dir [ ("a.svg", File "<svg/>"); ("b.svg", File "<svg/>") ]) ].

Definition listing_ba : node :=
  Dir [ ("d", Dir [ ("b.svg", File "<svg/>"); ("a.svg", File "<svg/>") ]) ].

(** * Properties *)

(** ** Examples *)

Example with_suffix_svg :
  with_suffix ["tests"; "shapes"; "rect.svg"] ".png"
  = inr ["tests"; "shapes"; "rect.png"].
Proof. reflexivity. Qed.

Example with_suffix_two_dots :
  with_suffix ["a.b.svg"] ".png" = inr ["a.b.png"].
Proof. reflexivity. Qed.

Example with_suffix_no_suffix :
  with_suffix ["d"; "notsvg"] ".png" = inr ["d"; "notsvg.png"].
Proof. reflexivity. Qed.

Example with_suffix_hidden :
  with_suffix [".svg"] ".png" = inr [".svg.png"].
Proof. reflexivity. Qed.

Example fnmatch_names :
  fnmatch "*svg" "rect.svg" = true /\ fnmatch "*svg" "rect.SVG" = false
  /\ fnmatch "*svg" "notsvg" = true /\ fnmatch "*svg" "svg.txt" = false
  /\ fnmatch "*svg" "svg" = true.
Proof. repeat split. Qed.

(** Paths are compared component by component, not as strings: [a/b] comes
    before [a-b] although ['-'] is smaller than ['/']. *)
Example sorted_by_components :
  sorted [["b"]; ["a-b"]; ["a"; "b"]; ["a"]] = [["a"]; ["a"; "b"]; ["a-b"]; ["b"]].
Proof. reflexivity. Qed.

Example main_on_mixed_directory :
  since (start sample_tree)
    (snd (main sample_svg2png ["mixed"] (start sample_tree)))
  = [ CallRglob ["mixed"] "*svg";
      Stdout "Found 3 file(s) to process";
      CallUnlink ["mixed"; "m.png"];
      CallSvg2png ["mixed"; "m.svg"] ["mixed"; "m.png"] 200 200;
      Stderr "Exception processing mixed/m.svg: syntax error: line 1, column 0";
      CallSvg2png ["mixed"; "sub"; "k.svg"] ["mixed"; "sub"; "k.png"] 200 200;
      Stdout "✓ Processed: mixed/sub/k.svg";
      CallSvg2png ["mixed"; "z.svg"] ["mixed"; "z.png"] 200 200;
      Stdout "✓ Processed: mixed/z.svg" ]
    ++ summary 2 1 3.
Proof. reflexivity. Qed.


(** ** One conversion *)

Section OneFile.

Variable svg2png : renderer.

(** [process_file] unfolded: which step raised decides the report. *)
Lemma process_file_cases (f : Path) (w : World) :
  process_file svg2png f w =
  match with_suffix f ".png" with
  | inl msg => (Ret false, emit (Stderr (exception_line f msg)) w)
  | inr out =>
      let present := path_exists out (fs w) in
      let w0 := if present then emit (CallUnlink out) w else w in
      match (if present then unlink out (fs w) else inr (fs w)) with
      | inl msg => (Ret false, emit (Stderr (exception_line f msg)) w0)
      | inr t =>
          let w1 := emit (CallSvg2png f out 200 200) w0 in
          match svg2png f out 200%Z 200%Z t with
          | (Some msg, t') =>
              (Ret false, emit (Stderr (exception_line f msg)) (set_fs t' w1))
          | (None, t') =>
              (Ret true, emit (Stdout (processed_line f)) (set_fs t' w1))
          end
      end
  end.
Proof.
  unfold process_file, try_except, process_file_try, process_file_except.
  unfold bind at 1. unfold lift.
  destruct (with_suffix f ".png") as [msg | out]; [reflexivity |].
  unfold ret at 1. unfold bind at 1. unfold exists_m at 1.
  destruct (path_exists out (fs w)) eqn:Hex; cbn zeta.
  - unfold bind at 1. unfold unlink_m.
    destruct (unlink out (fs w)) as [msg | t]; [reflexivity |].
    unfold bind at 1. unfold svg2png_m. cbn [fs set_fs emit].
    destruct (svg2png f out 200%Z 200%Z t) as [[msg |] t']; reflexivity.
  - unfold bind at 1. unfold ret at 1.
    unfold bind at 1. unfold svg2png_m.
    destruct (svg2png f out 200%Z 200%Z (fs w)) as [[msg |] t']; reflexivity.
Qed.

(** [process_file] always returns a boolean: it neither raises nor exits. *)
Lemma process_file_returns (f : Path) (w : World) :
  exists ok w', process_file svg2png f w = (Ret ok, w').
Proof.
  rewrite process_file_cases.
  destruct (with_suffix f ".png") as [msg | out]; [eauto |].
  cbn zeta.
  destruct (if path_exists out (fs w) then unlink out (fs w) else inr (fs w))
    as [msg | t]; [eauto |].
  destruct (svg2png f out 200%Z 200%Z t) as [[msg |] t']; eauto.
Qed.

(** What one conversion adds to the log: calls for that file, then its
    report. *)
Lemma process_file_log (f : Path) (w : World) :
  exists ok w' calls e,
    process_file svg2png f w = (Ret ok, w')
    /\ log w' = log w ++ calls ++ [e]
    /\ Forall (call_for f) calls
    /\ report_of f ok e.
Proof.
  rewrite process_file_cases.
  destruct (with_suffix f ".png") as [msg | out] eqn:Hout.
  - exists false, (emit (Stderr (exception_line f msg)) w), [],
      (Stderr (exception_line f msg)).
    repeat split; [constructor | exists msg; reflexivity].
  - cbn zeta.
    assert (Hu : call_for f (CallUnlink out)) by (exists out; auto).
    assert (Hr : call_for f (CallSvg2png f out 200 200)) by (exists out; auto).
    destruct (path_exists out (fs w)).
    + destruct (unlink out (fs w)) as [msg | t].
      * eexists false, _, [CallUnlink out], (Stderr (exception_line f msg)).
        split; [reflexivity |]. unfold emit; cbn [log fs].
        rewrite <- app_assoc. split; [reflexivity |].
        split; [repeat constructor; assumption | exists msg; reflexivity].
      * destruct (svg2png f out 200%Z 200%Z t) as [[msg |] t'].
        -- eexists false, _, [CallUnlink out; CallSvg2png f out 200 200],
             (Stderr (exception_line f msg)).
           split; [reflexivity |]. unfold emit, set_fs; cbn [log fs].
           rewrite <- !app_assoc. split; [reflexivity |].
           split; [repeat constructor; assumption | exists msg; reflexivity].
        -- eexists true, _, [CallUnlink out; CallSvg2png f out 200 200],
             (Stdout (processed_line f)).
           split; [reflexivity |]. unfold emit, set_fs; cbn [log fs].
           rewrite <- !app_assoc. split; [reflexivity |].
           split; [repeat constructor; assumption | reflexivity].
    + destruct (svg2png f out 200%Z 200%Z (fs w)) as [[msg |] t'].
      * eexists false, _, [CallSvg2png f out 200 200],
          (Stderr (exception_line f msg)).
        split; [reflexivity |]. unfold emit, set_fs; cbn [log fs].
        rewrite <- !app_assoc. split; [reflexivity |].
        split; [repeat constructor; assumption | exists msg; reflexivity].
      * eexists true, _, [CallSvg2png f out 200 200],
          (Stdout (processed_line f)).
        split; [reflexivity |]. unfold emit, set_fs; cbn [log fs].
        rewrite <- !app_assoc. split; [reflexivity |].
        split; [repeat constructor; assumption | reflexivity].
Qed.

End OneFile.

(** ** The loop and [main] *)

Section Loop.

Variable svg2png : renderer.

Lemma count_true_false (l : list bool) :
  (count true l + count false l)%Z = len l.
Proof.
  unfold count, len. induction l as [| [] l IH]; cbn [filter Bool.eqb List.length];
    [reflexivity | |]; lia.
Qed.

Lemma count_nonneg (b : bool) (l : list bool) : (0 <= count b l)%Z.
Proof. unfold count, len. lia. Qed.

Lemma count_cons (b x : bool) (l : list bool) :
  count b (x :: l) = ((if Bool.eqb b x then 1 else 0) + count b l)%Z.
Proof.
  unfold count, len. cbn [filter].
  destruct (Bool.eqb b x); cbn [List.length]; lia.
Qed.

Lemma conversions_length (files : list Path) (w : World) :
  List.length (fst (conversions svg2png files w)) = List.length files.
Proof.
  revert w. induction files as [| f files IH]; intros w; cbn; [reflexivity |].
  now rewrite IH.
Qed.

(** The loop returns, with the counters advanced by the number of
    successful and of failed conversions. *)
Lemma for_each_tally (files : list Path) (c : Z * Z) (w : World) :
  for_each files (tally svg2png) c w
  = (Ret (fst c + count true (fst (conversions svg2png files w)),
          snd c + count false (fst (conversions svg2png files w)))%Z,
     snd (conversions svg2png files w)).
Proof.
  revert c w. induction files as [| f files IH]; intros [s k] w.
  - cbn. unfold ret. now rewrite !Z.add_0_r.
  - cbn [for_each conversions fst snd]. unfold bind at 1. unfold tally at 1.
    unfold bind at 1.
    destruct (process_file_returns svg2png f w) as (ok & w' & E).
    rewrite E. cbn [fst snd]. rewrite !count_cons.
    destruct ok; unfold ret at 1; rewrite IH; cbn [fst snd Bool.eqb];
      do 2 f_equal; f_equal; lia.
Qed.

(** The log of the loop: the files are converted in the order of the
    list, each one once. *)
Lemma conversions_log (files : list Path) (w : World) :
  exists seg,
    log (snd (conversions svg2png files w)) = log w ++ seg
    /\ converted_in_order files (fst (conversions svg2png files w)) seg.
Proof.
  revert w. induction files as [| f files IH]; intros w.
  - exists []. cbn. rewrite app_nil_r. split; [reflexivity | constructor].
  - cbn [conversions fst snd].
    destruct (process_file_log svg2png f w) as (ok & w' & calls & e & E & L & C & R).
    rewrite E. cbn [fst snd].
    destruct (IH w') as (seg & L' & O).
    exists (calls ++ e :: seg). split.
    + rewrite L', L, <- !app_assoc. reflexivity.
    + destruct ok; constructor; assumption.
Qed.

(** [main] unfolded. *)
Lemma main_cases (input : Path) (w : World) :
  main svg2png input w =
  if negb (path_exists input (fs w)) then
    (Exit 1,
     emit (Stderr ("Error: Input directory does not exist: "
                   ++ path_str input)%string) w)
  else if negb (is_dir input (fs w)) then
    (Exit 1,
     emit (Stderr ("Error: Input path is not a directory: "
                   ++ path_str input)%string) w)
  else
    let files := sorted (rglob (fs w) input "*svg") in
    let w1 := emit (CallRglob input "*svg") w in
    match files with
    | [] =>
        (Exit 0, emit (Stdout ("No files found in " ++ path_str input)%string) w1)
    | _ :: _ =>
        let w2 := emit (Stdout ("Found " ++ str_int (len files)
                                ++ " file(s) to process")%string) w1 in
        let r := conversions svg2png files w2 in
        let successful := count true (fst r) in
        let failed := count false (fst r) in
        (if (0 <? failed)%Z then Exit 1 else Ret tt,
         emits (summary successful failed (len files)) (snd r))
    end.
Proof.
  unfold main. unfold bind at 1. unfold exists_m at 1.
  destruct (path_exists input (fs w)); cbn [negb]; [| reflexivity].
  unfold bind at 1. unfold ret at 1. unfold bind at 1. unfold is_dir_m at 1.
  destruct (is_dir input (fs w)); cbn [negb]; [| reflexivity].
  unfold bind at 1. unfold ret at 1. unfold bind at 1.
  unfold find_files, rglob_m. unfold bind at 1. unfold ret at 1.
  cbn [fs emit].
  destruct (sorted (rglob (fs w) input "*svg")) as [| f files] eqn:Hs;
    [reflexivity |].
  cbn zeta. unfold bind at 1. unfold ret at 1.
  unfold bind at 1. unfold print at 1. unfold bind at 1.
  rewrite for_each_tally. cbn [fst snd]. rewrite !Z.add_0_l.
  unfold bind, print, emits, summary, emit, sys_exit, ret; cbn [fs log].
  rewrite <- !app_assoc. cbn [app].
  destruct (0 <? count false _)%Z; reflexivity.
Qed.

End Loop.

(** ** Exit status, failures and the summary *)

Section Outcome.

Variable svg2png : renderer.

(** The log is only written: what a conversion returns and what it leaves
    on disk depend on the tree alone. *)
Lemma process_file_fs_only (f : Path) (w1 w2 : World) :
  fs w1 = fs w2 ->
  fst (process_file svg2png f w1) = fst (process_file svg2png f w2)
  /\ fs (snd (process_file svg2png f w1)) = fs (snd (process_file svg2png f w2)).
Proof.
  intros E. rewrite !process_file_cases, E.
  destruct (with_suffix f ".png") as [msg | out]; [split; auto |].
  cbn zeta.
  destruct (path_exists out (fs w2));
    [destruct (unlink out (fs w2)) as [msg | t]; [split; auto |] |];
    destruct (svg2png f out 200%Z 200%Z _) as [[msg |] t']; split; auto.
Qed.

Lemma conversions_fs_only (files : list Path) (w1 w2 : World) :
  fs w1 = fs w2 ->
  fst (conversions svg2png files w1) = fst (conversions svg2png files w2)
  /\ fs (snd (conversions svg2png files w1))
     = fs (snd (conversions svg2png files w2)).
Proof.
  revert w1 w2. induction files as [| f files IH]; intros w1 w2 E.
  - cbn. auto.
  - cbn [conversions fst snd].
    destruct (process_file_fs_only f w1 w2 E) as [E1 E2].
    destruct (IH _ _ E2) as [E3 E4]. rewrite E1, E3, E4. auto.
Qed.

Lemma conversions_app (l1 l2 : list Path) (w : World) :
  conversions svg2png (l1 ++ l2) w
  = (fst (conversions svg2png l1 w)
     ++ fst (conversions svg2png l2 (snd (conversions svg2png l1 w))),
     snd (conversions svg2png l2 (snd (conversions svg2png l1 w)))).
Proof.
  revert w. induction l1 as [| f l1 IH]; intros w.
  - cbn. now destruct (conversions svg2png l2 w).
  - cbn [app conversions fst snd]. rewrite IH. reflexivity.
Qed.

Lemma for_each_app {A S} (l1 l2 : list A) (body : A -> S -> M S) (s : S)
    (w : World) :
  for_each (l1 ++ l2) body s w
  = match for_each l1 body s w with
    | (Ret s1, w1) => for_each l2 body s1 w1
    | (Raise msg, w1) => (Raise msg, w1)
    | (Exit c, w1) => (Exit c, w1)
    end.
Proof.
  revert s w. induction l1 as [| a l1 IH]; intros s w.
  - reflexivity.
  - cbn [app for_each]. unfold bind.
    destruct (body a s w) as [[s1 | msg | c] w1]; auto.
Qed.

Lemma count_false_pos (l : list bool) :
  (0 <? count false l)%Z = existsb negb l.
Proof.
  induction l as [| [] l IH].
  - reflexivity.
  - rewrite count_cons. cbn [Bool.eqb existsb negb orb]. now rewrite Z.add_0_l.
  - rewrite count_cons. cbn [Bool.eqb existsb negb orb].
    pose proof (count_nonneg false l). apply Z.ltb_lt. lia.
Qed.

Lemma existsb_negb_forallb (l : list bool) :
  existsb negb l = negb (forallb (fun ok => ok) l).
Proof. induction l as [| [] l IH]; cbn; auto. Qed.

Lemma is_dir_exists (p : Path) (t : node) :
  is_dir p t = true -> path_exists p t = true.
Proof.
  unfold is_dir, path_exists. destruct (lookup p t) as [[] |]; auto.
Qed.

(** The exit status of a run that reaches the loop. *)
Lemma main_exit_loop (input : Path) (w : World) :
  is_dir input (fs w) = true ->
  sorted (rglob (fs w) input "*svg") <> [] ->
  exit_status (main svg2png input w)
  = if existsb negb
         (fst (conversions svg2png (sorted (rglob (fs w) input "*svg")) w))
    then 1%Z else 0%Z.
Proof.
  intros Hd Hne. rewrite main_cases, (is_dir_exists _ _ Hd), Hd. cbn [negb].
  cbn zeta.
  destruct (sorted (rglob (fs w) input "*svg")) as [| f files] eqn:Hs;
    [congruence |].
  match goal with
  | |- context [conversions svg2png (f :: files) ?w2] =>
      destruct (conversions_fs_only (f :: files) w2 w eq_refl) as [-> _]
  end.
  unfold exit_status. cbn [fst]. rewrite count_false_pos.
  destruct (existsb negb _); reflexivity.
Qed.

(** C2: the exit status is 0 when every discovered file converts or none
    was discovered, and 1 when a conversion fails or the input path is
    missing or not a directory; in the last two cases [main] only writes
    its error message: the tree is not traversed. *)
Theorem main_exit_status (input : Path) (w : World) :
  let r := main svg2png input w in
  let files := sorted (rglob (fs w) input "*svg") in
  let results := fst (conversions svg2png files w) in
  (path_exists input (fs w) = false ->
     exit_status r = 1%Z
     /\ r = (Exit 1,
             emit (Stderr ("Error: Input directory does not exist: "
                           ++ path_str input)%string) w))
  /\ (path_exists input (fs w) = true -> is_dir input (fs w) = false ->
     exit_status r = 1%Z
     /\ r = (Exit 1,
             emit (Stderr ("Error: Input path is not a directory: "
                           ++ path_str input)%string) w))
  /\ (is_dir input (fs w) = true -> files = [] -> exit_status r = 0%Z)
  /\ (is_dir input (fs w) = true -> forallb (fun ok => ok) results = true ->
      exit_status r = 0%Z)
  /\ (is_dir input (fs w) = true -> existsb negb results = true ->
      exit_status r = 1%Z).
Proof.
  cbv zeta. split; [| split; [| split; [| split]]].
  - intros He. rewrite main_cases, He. split; reflexivity.
  - intros He Hd. rewrite main_cases, He, Hd. split; reflexivity.
  - intros Hd Hn. rewrite main_cases, (is_dir_exists _ _ Hd), Hd, Hn.
    reflexivity.
  - intros Hd Hall.
    destruct (sorted (rglob (fs w) input "*svg")) as [| f files] eqn:Hs.
    + rewrite main_cases, (is_dir_exists _ _ Hd), Hd, Hs. reflexivity.
    + rewrite main_exit_loop, Hs by (auto; rewrite Hs; discriminate).
      now rewrite existsb_negb_forallb, Hall.
  - intros Hd Hex.
    destruct (sorted (rglob (fs w) input "*svg")) as [| f files] eqn:Hs.
    + discriminate Hex.
    + rewrite main_exit_loop, Hs by (auto; rewrite Hs; discriminate).
      now rewrite Hex.
Qed.

End Outcome.

Lemma main_exit_status_witness :
  exit_status (main sample_svg2png ["absent"] (start sample_tree)) = 1%Z
  /\ exit_status (main sample_svg2png ["notes.txt"] (start sample_tree)) = 1%Z
  /\ exit_status (main sample_svg2png ["docs"] (start sample_tree)) = 0%Z
  /\ exit_status (main sample_svg2png ["good"] (start sample_tree)) = 0%Z
  /\ exit_status (main sample_svg2png ["mixed"] (start sample_tree)) = 1%Z.
Proof.
  refine (conj _ (conj _ (conj _ (conj _ _)))).
  - destruct (main_exit_status sample_svg2png ["absent"] (start sample_tree))
      as (H & _).
    apply H. reflexivity.
  - destruct (main_exit_status sample_svg2png ["notes.txt"] (start sample_tree))
      as (_ & H & _).
    apply H; reflexivity.
  - destruct (main_exit_status sample_svg2png ["docs"] (start sample_tree))
      as (_ & _ & H & _).
    apply H; reflexivity.
  - destruct (main_exit_status sample_svg2png ["good"] (start sample_tree))
      as (_ & _ & _ & H & _).
    apply H; reflexivity.
  - destruct (main_exit_status sample_svg2png ["mixed"] (start sample_tree))
      as (_ & _ & _ & _ & H).
    apply H; reflexivity.
Defined.

Section Failures.

Variable svg2png : renderer.

(** C3: when the conversion of a discovered file raises, the exception is
    caught: its message goes to standard error with the path of the file,
    [process_file] returns [False], the loop adds one to [failed] and goes
    on with the files that remain; the loop as a whole returns, with one
    result per file. *)
Theorem conversion_exception_is_caught
    (before after : list Path) (f : Path) (c : Z * Z) (w : World)
    (msg : string) :
  let wf := snd (conversions svg2png before w) in
  let cf := (fst c + count true (fst (conversions svg2png before w)),
             snd c + count false (fst (conversions svg2png before w)))%Z in
  fst (process_file_try svg2png f wf) = Raise msg ->
  let w' := emit (Stderr (exception_line f msg))
                 (snd (process_file_try svg2png f wf)) in
  process_file svg2png f wf = (Ret false, w')
  /\ tally svg2png f cf wf = (Ret (fst cf, snd cf + 1)%Z, w')
  /\ for_each (before ++ f :: after) (tally svg2png) c w
     = for_each after (tally svg2png) (fst cf, snd cf + 1)%Z w'
  /\ (exists c' w'',
        for_each (before ++ f :: after) (tally svg2png) c w = (Ret c', w''))
  /\ List.length (fst (conversions svg2png (before ++ f :: after) w))
     = List.length (before ++ f :: after).
Proof.
  intros wf cf Hraise w'.
  assert (Hp : process_file svg2png f wf = (Ret false, w')).
  { unfold process_file, try_except.
    destruct (process_file_try svg2png f wf) as [[b | m | k] w1] eqn:E;
      cbn [fst] in Hraise; try discriminate.
    injection Hraise as ->. reflexivity. }
  assert (Ht : tally svg2png f cf wf = (Ret (fst cf, snd cf + 1)%Z, w')).
  { unfold tally, bind. rewrite Hp. reflexivity. }
  split; [exact Hp |]. split; [exact Ht |]. split; [| split].
  - rewrite for_each_app, (for_each_tally svg2png before c w).
    fold wf cf. cbn [for_each]. unfold bind at 1. rewrite Ht. reflexivity.
  - rewrite for_each_tally. eauto.
  - apply conversions_length.
Qed.

(** C9: after the loop [successful + failed] is the number of discovered
    files, each file having been counted once, under the result of its own
    conversion; the summary prints these counters, and its total is their
    sum. *)
Theorem summary_counts (input : Path) (w : World) :
  is_dir input (fs w) = true ->
  let files := sorted (rglob (fs w) input "*svg") in
  files <> [] ->
  let w0 := emits [ CallRglob input "*svg";
                    Stdout ("Found " ++ str_int (len files)
                            ++ " file(s) to process")%string ] w in
  exists (successful failed : Z) (results : list bool) (w1 : World),
    for_each files (tally svg2png) (0, 0)%Z w0 = (Ret (successful, failed), w1)
    /\ (successful + failed)%Z = len files
    /\ List.length results = List.length files
    /\ successful = count true results
    /\ failed = count false results
    /\ (exists seg, log w1 = log w0 ++ seg
                    /\ converted_in_order files results seg)
    /\ main svg2png input w
       = (if (0 <? failed)%Z then Exit 1 else Ret tt,
          emits (summary successful failed (successful + failed)) w1).
Proof.
  intros Hd files Hne w0.
  pose (r := conversions svg2png files w0).
  exists (count true (fst r)), (count false (fst r)), (fst r), (snd r).
  split; [apply for_each_tally |].
  split; [rewrite count_true_false; unfold len, r;
          now rewrite conversions_length |].
  split; [apply conversions_length |].
  split; [reflexivity |]. split; [reflexivity |].
  split; [apply conversions_log |].
  rewrite main_cases, (is_dir_exists _ _ Hd), Hd. cbn [negb]. cbn zeta.
  assert (E : emit (Stdout ("Found " ++ str_int (len files)
                            ++ " file(s) to process")%string)
                (emit (CallRglob input "*svg") w) = w0).
  { unfold w0, emits, emit. cbn [fs log]. now rewrite <- app_assoc. }
  fold files. rewrite count_true_false.
  replace (len (fst r)) with (len files)
    by (unfold len, r; now rewrite conversions_length).
  clearbody files. destruct files as [| f0 files0]; [congruence |].
  rewrite E. reflexivity.
Qed.

End Failures.

(** ** The file system: what a change at one path leaves alone *)

Lemma find_entry_remove_same (c : string) (es : list (string * node)) :
  find_entry c (remove_entry c es) = None.
Proof.
  unfold remove_entry. induction es as [| [c' n] es IH]; cbn; [reflexivity |].
  destruct (String.eqb c' c) eqn:E; cbn; [exact IH |]. now rewrite E.
Qed.

Lemma find_entry_remove_other (c c0 : string) (es : list (string * node)) :
  c0 <> c -> find_entry c0 (remove_entry c es) = find_entry c0 es.
Proof.
  intros Hne. unfold remove_entry.
  induction es as [| [c' n] es IH]; cbn; [reflexivity |].
  destruct (String.eqb c' c) eqn:E; cbn.
  - apply String.eqb_eq in E. subst c'.
    destruct (String.eqb c c0) eqn:E0; [| exact IH].
    apply String.eqb_eq in E0. congruence.
  - now rewrite IH.
Qed.

Lemma find_entry_set_same (c : string) (n : node) (es : list (string * node)) :
  find_entry c (set_entry c n es) = Some n.
Proof.
  induction es as [| [c' n'] es IH]; cbn.
  - now rewrite String.eqb_refl.
  - destruct (String.eqb c' c) eqn:E; cbn.
    + now rewrite String.eqb_refl.
    + now rewrite E.
Qed.

Lemma find_entry_set_other (c c0 : string) (n : node)
    (es : list (string * node)) :
  c0 <> c -> find_entry c0 (set_entry c n es) = find_entry c0 es.
Proof.
  intros Hne. induction es as [| [c' n'] es IH]; cbn.
  - destruct (String.eqb c c0) eqn:E; [| reflexivity].
    apply String.eqb_eq in E. congruence.
  - destruct (String.eqb c' c) eqn:E; cbn.
    + apply String.eqb_eq in E. subst c'.
      destruct (String.eqb c c0) eqn:E0; [| reflexivity].
      apply String.eqb_eq in E0. congruence.
    + now rewrite IH.
Qed.

Lemma find_entry_map_same (c : string) (g : node -> node)
    (es : list (string * node)) :
  find_entry c (map_entry c g es) = option_map g (find_entry c es).
Proof.
  induction es as [| [c' n'] es IH]; cbn; [reflexivity |].
  destruct (String.eqb c' c) eqn:E; cbn; now rewrite E.
Qed.

Lemma find_entry_map_other (c c0 : string) (g : node -> node)
    (es : list (string * node)) :
  c0 <> c -> find_entry c0 (map_entry c g es) = find_entry c0 es.
Proof.
  intros Hne. induction es as [| [c' n'] es IH]; cbn; [reflexivity |].
  destruct (String.eqb c' c) eqn:E; cbn.
  - apply String.eqb_eq in E. subst c'.
    destruct (String.eqb c c0) eqn:E0; [| reflexivity].
    apply String.eqb_eq in E0. congruence.
  - now rewrite IH.
Qed.

Lemma lookup_file_below (p : Path) (data : string) :
  p <> [] -> lookup p (File data) = None.
Proof. destruct p; [congruence | reflexivity]. Qed.

(** The entry at [d ++ [c]] is an entry of the directory at [d]. *)
Lemma lookup_snoc (d : Path) (c : string) (t n : node) :
  lookup (d ++ [c]) t = Some n ->
  exists es, lookup d t = Some (Dir es) /\ find_entry c es = Some n.
Proof.
  revert t. induction d as [| c0 d IH]; intros t H.
  - cbn in H. destruct t as [data | es]; [discriminate |].
    exists es. split; [reflexivity |].
    destruct (find_entry c es); [assumption | discriminate].
  - cbn [app lookup] in H |- *. destruct t as [data | es]; [discriminate |].
    destruct (find_entry c0 es) as [n0 |]; [| discriminate].
    apply IH. exact H.
Qed.

Lemma lookup_snoc_dir (d : Path) (c : string) (t : node)
    (es : list (string * node)) :
  lookup d t = Some (Dir es) -> lookup (d ++ [c]) t = find_entry c es.
Proof.
  revert t. induction d as [| c0 d IH]; intros t H.
  - cbn in H. injection H as ->. cbn. now destruct (find_entry c es).
  - cbn [app lookup] in H |- *. destruct t as [data | es0]; [discriminate |].
    destruct (find_entry c0 es0) as [n0 |]; [| discriminate].
    apply IH. exact H.
Qed.

Section ModifyDir.

(** A change [f] of a directory that touches the entry named [nm] only,
    and leaves a regular file or nothing there. *)
Variable f : list (string * node) -> list (string * node).
Variable nm : string.
Hypothesis f_other :
  forall es c, c <> nm -> find_entry c (f es) = find_entry c es.
Hypothesis f_at :
  forall es, find_entry nm (f es) = None
             \/ exists data, find_entry nm (f es) = Some (File data).

Lemma modify_dir_at (d : Path) (t : node) (es : list (string * node)) :
  lookup d t = Some (Dir es) ->
  lookup (d ++ [nm]) (modify_dir d f t) = find_entry nm (f es).
Proof.
  revert t. induction d as [| c0 d IH]; intros t H.
  - cbn in H. injection H as ->. cbn. now destruct (find_entry nm (f es)).
  - cbn [app lookup modify_dir] in H |- *.
    destruct t as [data | es0]; [discriminate |].
    rewrite find_entry_map_same.
    destruct (find_entry c0 es0) as [n0 |]; [| discriminate].
    cbn [option_map]. apply IH. exact H.
Qed.

Lemma modify_dir_other (d : Path) (t : node) (p : Path) :
  p <> d ++ [nm] ->
  is_dir (d ++ [nm]) t = false ->
  read p (modify_dir d f t) = read p t
  /\ is_dir p (modify_dir d f t) = is_dir p t.
Proof.
  unfold read, is_dir.
  revert t p. induction d as [| c0 d IH]; intros t p Hp Hd.
  - destruct t as [data | es]; [auto |]. cbn [modify_dir].
    destruct p as [| c rest]; [auto |]. cbn [lookup].
    destruct (String.eqb_spec c nm) as [-> | Hc].
    + assert (Hrest : rest <> []) by (intros ->; apply Hp; reflexivity).
      cbn [app lookup] in Hd.
      destruct (f_at es) as [-> | [data ->]];
        [| rewrite (lookup_file_below _ _ Hrest)];
        (destruct (find_entry nm es) as [[data0 | es0] |];
         [rewrite (lookup_file_below _ _ Hrest); auto | discriminate | auto]).
    + now rewrite (f_other es c Hc).
  - destruct t as [data | es]; [auto |]. cbn [modify_dir].
    destruct p as [| c rest]; [auto |]. cbn [lookup].
    destruct (String.eqb_spec c c0) as [-> | Hc].
    + rewrite find_entry_map_same. cbn [app lookup] in Hd.
      destruct (find_entry c0 es) as [n0 |]; cbn [option_map]; [| auto].
      apply IH; [| exact Hd]. intros ->. apply Hp. reflexivity.
    + now rewrite (find_entry_map_other c0 c _ es Hc).
Qed.

End ModifyDir.

Lemma nonempty_snoc (p : Path) : p <> [] -> p = parent p ++ [name p].
Proof. intros H. unfold parent, name. now apply app_removelast_last. Qed.

(** Removing a regular file: the path is gone, every other file keeps its
    content and the directories are the same. *)
Lemma unlink_file (q : Path) (t : node) :
  q <> [] -> is_file q t = true ->
  exists t',
    unlink q t = inr t'
    /\ path_exists q t' = false
    /\ (forall p, p <> q -> read p t' = read p t)
    /\ (forall p, is_dir p t' = is_dir p t).
Proof.
  intros Hq Hf. unfold unlink. unfold is_file in Hf.
  destruct (lookup q t) as [[data | es0] |] eqn:Hl; try discriminate.
  eexists. split; [reflexivity |].
  assert (Hother : forall es c, c <> name q ->
            find_entry c (remove_entry (name q) es) = find_entry c es)
    by (intros; now apply find_entry_remove_other).
  assert (Hat : forall es,
            find_entry (name q) (remove_entry (name q) es) = None
            \/ exists d, find_entry (name q) (remove_entry (name q) es)
                         = Some (File d))
    by (intros; left; apply find_entry_remove_same).
  pose proof (nonempty_snoc q Hq) as Hsplit.
  assert (Hqd : is_dir q t = false) by (unfold is_dir; now rewrite Hl).
  assert (Hnd : is_dir (parent q ++ [name q]) t = false) by now rewrite <- Hsplit.
  assert (Hgone : lookup q (modify_dir (parent q) (remove_entry (name q)) t)
                  = None).
  { rewrite Hsplit in Hl. destruct (lookup_snoc _ _ _ _ Hl) as (es & Hp & _).
    rewrite Hsplit at 1.
    rewrite (modify_dir_at _ (name q) _ _ _ Hp). apply find_entry_remove_same. }
  split; [| split].
  - unfold path_exists. now rewrite Hgone.
  - intros p Hp. apply (modify_dir_other _ _ Hother Hat); [congruence | exact Hnd].
  - intros p. destruct (list_eq_dec string_dec p q) as [-> | Hp].
    + rewrite Hqd. unfold is_dir. now rewrite Hgone.
    + apply (modify_dir_other _ _ Hother Hat); [congruence | exact Hnd].
Qed.

(** Writing a regular file: it is there with its content, every other file
    keeps its content and the directories are the same. *)
Lemma write_file_spec (q : Path) (data : string) (t t' : node) :
  write_file q data t = Some t' ->
  read q t' = Some data
  /\ (forall p, p <> q -> read p t' = read p t)
  /\ (forall p, is_dir p t' = is_dir p t).
Proof.
  unfold write_file. destruct q as [| c0 q0] eqn:Eq; [discriminate |].
  rewrite <- Eq. assert (Hq : q <> []) by (rewrite Eq; discriminate).
  clear Eq c0 q0.
  destruct (is_dir (parent q) t) eqn:Hpd; [| discriminate].
  destruct (is_dir q t) eqn:Hqd; [discriminate |]. cbn [andb negb].
  intros H. injection H as <-.
  assert (Hother : forall es c, c <> name q ->
            find_entry c (set_entry (name q) (File data) es) = find_entry c es)
    by (intros; now apply find_entry_set_other).
  assert (Hat : forall es,
            find_entry (name q) (set_entry (name q) (File data) es) = None
            \/ exists d, find_entry (name q) (set_entry (name q) (File data) es)
                         = Some (File d))
    by (intros; right; exists data; apply find_entry_set_same).
  pose proof (nonempty_snoc q Hq) as Hsplit.
  assert (Hnd : is_dir (parent q ++ [name q]) t = false) by now rewrite <- Hsplit.
  unfold is_dir in Hpd.
  destruct (lookup (parent q) t) as [[d0 | es] |] eqn:Hl; try discriminate.
  assert (Hnew : lookup q (modify_dir (parent q)
                             (set_entry (name q) (File data)) t)
                 = Some (File data)).
  { rewrite Hsplit at 1.
    rewrite (modify_dir_at _ (name q) (parent q) t es Hl).
    apply find_entry_set_same. }
  split; [| split].
  - unfold read. now rewrite Hnew.
  - intros p Hp. apply (modify_dir_other _ _ Hother Hat); [congruence | exact Hnd].
  - intros p. destruct (list_eq_dec string_dec p q) as [-> | Hp].
    + rewrite Hqd. unfold is_dir. now rewrite Hnew.
    + apply (modify_dir_other _ _ Hother Hat); [congruence | exact Hnd].
Qed.

(** ** Names, stems and suffixes *)

Lemma substring_length (s : string) (n m : nat) :
  n + m <= String.length s -> String.length (substring n m s) = m.
Proof.
  revert n m. induction s as [| c s IH]; intros n m H; cbn in H.
  - destruct n, m; cbn; lia.
  - destruct n as [| n]; cbn.
    + destruct m as [| m]; cbn; [reflexivity |]. rewrite IH; lia.
    + apply IH. lia.
Qed.

Lemma substring_split (s : string) (n : nat) :
  n <= String.length s ->
  (substring 0 n s ++ substring n (String.length s - n) s)%string = s.
Proof.
  revert n. induction s as [| c s IH]; intros n H; cbn in H.
  - destruct n; [reflexivity | lia].
  - destruct n as [| n].
    + cbn. f_equal. specialize (IH 0 (Nat.le_0_l _)).
      rewrite Nat.sub_0_r in IH.
      destruct s; [reflexivity | exact IH].
    + cbn. f_equal. apply IH. lia.
Qed.

Lemma substring_app_prefix (s t : string) :
  substring 0 (String.length s) (s ++ t) = s.
Proof.
  induction s as [| c s IH]; cbn.
  - now destruct t.
  - now rewrite IH.
Qed.

Lemma substring_app_suffix (s t : string) :
  substring (String.length s) (String.length t) (s ++ t) = t.
Proof.
  induction s as [| c s IH]; cbn; [| exact IH].
  induction t as [| d t IHt]; cbn; [reflexivity | now rewrite IHt].
Qed.

Lemma append_length (s t : string) :
  String.length (s ++ t) = String.length s + String.length t.
Proof. induction s as [| c s IH]; cbn; [reflexivity | now rewrite IH]. Qed.

Lemma rfind_bounds (c : ascii) (s : string) :
  (-1 <= rfind c s < Z.of_nat (String.length s))%Z.
Proof.
  induction s as [| d s IH]; cbn [rfind String.length]; [lia |].
  destruct (0 <=? rfind c s)%Z eqn:E; [lia |].
  destruct (Ascii.eqb d c); lia.
Qed.

(** The last dot of [s ++ ".png"] is the one of [".png"]. *)
Lemma rfind_dot_png (s : string) :
  rfind "." (s ++ ".png") = Z.of_nat (String.length s).
Proof.
  induction s as [| d s IH]; [reflexivity |].
  cbn [append rfind String.length]. rewrite IH.
  destruct (0 <=? Z.of_nat (String.length s))%Z eqn:E; [lia |].
  apply Z.leb_gt in E. lia.
Qed.

Lemma is_empty_true (s : string) : is_empty s = true <-> s = "".
Proof. destruct s; cbn; split; congruence. Qed.

Lemma is_empty_length (s : string) :
  is_empty s = false <-> 0 < String.length s.
Proof. destruct s; cbn; split; try congruence; lia. Qed.

Lemma name_snoc (p : Path) (c : string) : name (p ++ [c]) = c.
Proof. unfold name. apply last_last. Qed.

Lemma parent_snoc (p : Path) (c : string) : parent (p ++ [c]) = p.
Proof. unfold parent. apply removelast_last. Qed.

(** A name is its stem followed by its suffix. *)
Lemma name_stem_suffix (p : Path) : name p = (stem p ++ suffix p)%string.
Proof.
  unfold stem, suffix, splits, slice_to, slice_from.
  pose proof (rfind_bounds "." (name p)) as B.
  destruct ((0 <? rfind "." (name p))%Z
            && (rfind "." (name p) <? Z.of_nat (String.length (name p)) - 1)%Z)
    eqn:E.
  - symmetry. apply substring_split. lia.
  - destruct (name p); [reflexivity |]. cbn [append].
    f_equal. clear. induction s; cbn; congruence.
Qed.

Lemma stem_nonempty (p : Path) : is_empty (name p) = false -> is_empty (stem p) = false.
Proof.
  intros H. unfold stem, splits, slice_to.
  destruct ((0 <? rfind "." (name p))%Z
            && (rfind "." (name p) <? Z.of_nat (String.length (name p)) - 1)%Z)
    eqn:E; [| exact H].
  apply andb_prop in E as [E1 E2]. apply Z.ltb_lt in E1, E2.
  apply is_empty_length. rewrite substring_length; lia.
Qed.

(** [with_suffix('.png')]: the stem of the name followed by [.png], in the
    same directory; only a path without a name is refused. *)
Lemma with_suffix_png (p : Path) :
  with_suffix p ".png"
  = if is_empty (name p)
    then inl (path_repr p ++ " has an empty name")%string
    else inr (parent p ++ [(stem p ++ ".png")%string]).
Proof.
  unfold with_suffix.
  change (contains "/" ".png") with false.
  change ((negb (is_empty ".png") && negb (startswith "." ".png"))
          || (".png" =? ".")%string) with false.
  cbv iota.
  destruct (is_empty (name p)) eqn:Hn; [reflexivity |].
  unfold parent. do 3 f_equal.
  unfold suffix, stem, splits, slice_from, slice_to.
  destruct ((0 <? rfind "." (name p))%Z
            && (rfind "." (name p) <? Z.of_nat (String.length (name p)) - 1)%Z)
    eqn:E; [| reflexivity].
  apply andb_prop in E as [E1 E2]. apply Z.ltb_lt in E1, E2.
  set (i := rfind "." (name p)) in *.
  assert (Hlen : String.length (substring (Z.to_nat i)
                    (String.length (name p) - Z.to_nat i) (name p))
                 = String.length (name p) - Z.to_nat i)
    by (apply substring_length; lia).
  destruct (is_empty (substring _ _ _)) eqn:Es.
  - apply is_empty_true in Es. rewrite Es in Hlen. cbn in Hlen. lia.
  - rewrite Hlen. do 2 f_equal. lia.
Qed.

Lemma with_suffix_png_inr (p out : Path) :
  with_suffix p ".png" = inr out ->
  out = parent p ++ [(stem p ++ ".png")%string] /\ out <> []
  /\ is_empty (name p) = false.
Proof.
  rewrite with_suffix_png.
  destruct (is_empty (name p)); [discriminate |].
  intros H. injection H as <-. repeat split. now destruct (parent p).
Qed.

Lemma stem_png (d : Path) (s : string) :
  is_empty s = false -> stem (d ++ [(s ++ ".png")%string]) = s.
Proof.
  intros H. apply is_empty_length in H.
  unfold stem, splits, slice_to. rewrite name_snoc, rfind_dot_png, append_length.
  cbn [String.length].
  replace ((0 <? Z.of_nat (String.length s))%Z) with true
    by (symmetry; apply Z.ltb_lt; lia).
  replace ((Z.of_nat (String.length s) <? Z.of_nat (String.length s + 4) - 1)%Z)
    with true by (symmetry; apply Z.ltb_lt; lia).
  cbn [andb]. rewrite Nat2Z.id. apply substring_app_prefix.
Qed.

Lemma suffix_png (d : Path) (s : string) :
  is_empty s = false -> suffix (d ++ [(s ++ ".png")%string]) = ".png".
Proof.
  intros H. apply is_empty_length in H.
  unfold suffix, splits, slice_from.
  rewrite name_snoc, rfind_dot_png, append_length.
  cbn [String.length].
  replace ((0 <? Z.of_nat (String.length s))%Z) with true
    by (symmetry; apply Z.ltb_lt; lia).
  replace ((Z.of_nat (String.length s) <? Z.of_nat (String.length s + 4) - 1)%Z)
    with true by (symmetry; apply Z.ltb_lt; lia).
  cbn [andb]. rewrite Nat2Z.id.
  replace (String.length s + 4 - String.length s) with (String.length ".png")
    by (cbn; lia).
  apply substring_app_suffix.
Qed.


(** ** Overwriting and failed conversions *)

Section Overwrite.

Variable svg2png : renderer.

(** A conversion over an existing output file. *)
Lemma process_file_existing_output (f out : Path) (w : World) :
  with_suffix f ".png" = inr out ->
  is_file out (fs w) = true ->
  exists t,
    unlink out (fs w) = inr t
    /\ path_exists out t = false
    /\ (forall p, p <> out -> read p t = read p (fs w))
    /\ (forall p, is_dir p t = is_dir p (fs w))
    /\ process_file svg2png f w
       = (Ret (succeeded (fst (svg2png f out 200%Z 200%Z t))),
          mkWorld (snd (svg2png f out 200%Z 200%Z t))
            (log w ++ [ CallUnlink out; CallSvg2png f out 200 200;
                        report_event f (fst (svg2png f out 200%Z 200%Z t)) ])).
Proof.
  intros Hout Hf. destruct (with_suffix_png_inr _ _ Hout) as (_ & Hne & _).
  destruct (unlink_file out (fs w) Hne Hf) as (t & Hu & Hg & Hr & Hd).
  exists t. repeat (split; [assumption |]).
  rewrite process_file_cases, Hout. cbn zeta.
  assert (Hex : path_exists out (fs w) = true).
  { unfold path_exists, is_file in *. now destruct (lookup out (fs w)). }
  rewrite Hex, Hu.
  destruct (svg2png f out 200%Z 200%Z t) as [[msg |] t'];
    unfold emit, set_fs; cbn [fst snd fs log succeeded report_event];
    rewrite <- !app_assoc; reflexivity.
Qed.

(** A conversion when nothing is at the output path. *)
Lemma process_file_fresh_output (f out : Path) (w : World) :
  with_suffix f ".png" = inr out ->
  path_exists out (fs w) = false ->
  process_file svg2png f w
  = (Ret (succeeded (fst (svg2png f out 200%Z 200%Z (fs w)))),
     mkWorld (snd (svg2png f out 200%Z 200%Z (fs w)))
       (log w ++ [ CallSvg2png f out 200 200;
                   report_event f (fst (svg2png f out 200%Z 200%Z (fs w))) ])).
Proof.
  intros Hout Hex. rewrite process_file_cases, Hout. cbn zeta. rewrite Hex.
  destruct (svg2png f out 200%Z 200%Z (fs w)) as [[msg |] t'];
    unfold emit, set_fs; cbn [fst snd fs log succeeded report_event];
    rewrite <- !app_assoc; reflexivity.
Qed.

(** C5: when a regular file is at the derived output path, [process_file]
    first deletes it and then calls the renderer, which finds no file at
    that path and writes there; when nothing is at the output path the
    renderer is called at once.  Either way the result is that of the
    renderer alone: an image left by a previous run is overwritten, not an
    error. *)
Theorem process_file_deletes_then_renders (f out : Path) (w : World) :
  with_suffix f ".png" = inr out ->
  (is_file out (fs w) = true ->
     exists t,
       unlink out (fs w) = inr t
       /\ path_exists out t = false
       /\ (forall p, p <> out -> read p t = read p (fs w))
       /\ process_file svg2png f w
          = (Ret (succeeded (fst (svg2png f out 200%Z 200%Z t))),
             mkWorld (snd (svg2png f out 200%Z 200%Z t))
               (log w ++ [ CallUnlink out; CallSvg2png f out 200 200;
                           report_event f (fst (svg2png f out 200%Z 200%Z t)) ])))
  /\ (path_exists out (fs w) = false ->
        process_file svg2png f w
        = (Ret (succeeded (fst (svg2png f out 200%Z 200%Z (fs w)))),
           mkWorld (snd (svg2png f out 200%Z 200%Z (fs w)))
             (log w ++ [ CallSvg2png f out 200 200;
                         report_event f
                           (fst (svg2png f out 200%Z 200%Z (fs w))) ]))).
Proof.
  intros Hout. split.
  - intros Hf.
    destruct (process_file_existing_output f out w Hout Hf)
      as (t & Hu & Hg & Hr & _ & Hp).
    exists t. auto.
  - intros Hex. now apply process_file_fresh_output.
Qed.


End Overwrite.

Lemma conversion_exception_is_caught_witness :
  fst (process_file_try sample_svg2png ["mixed"; "m.svg"]
         (snd (conversions sample_svg2png
                 [["good"; "a.svg"]; ["good"; "b.svg"]] (start sample_tree))))
  = Raise "syntax error: line 1, column 0"
  /\ fst (process_file sample_svg2png ["mixed"; "m.svg"]
            (snd (conversions sample_svg2png
                    [["good"; "a.svg"]; ["good"; "b.svg"]] (start sample_tree))))
     = Ret false
  /\ fst (for_each
            ([["good"; "a.svg"]; ["good"; "b.svg"]]
             ++ ["mixed"; "m.svg"]
             :: [["mixed"; "sub"; "k.svg"]; ["mixed"; "z.svg"]])
            (tally sample_svg2png) (0, 0)%Z (start sample_tree))
     = Ret (4, 1)%Z.
Proof.
  assert (H : fst (process_file_try sample_svg2png ["mixed"; "m.svg"]
                     (snd (conversions sample_svg2png
                             [["good"; "a.svg"]; ["good"; "b.svg"]]
                             (start sample_tree))))
              = Raise "syntax error: line 1, column 0") by reflexivity.
  split; [exact H |].
  destruct (conversion_exception_is_caught sample_svg2png
              [["good"; "a.svg"]; ["good"; "b.svg"]]
              [["mixed"; "sub"; "k.svg"]; ["mixed"; "z.svg"]]
              ["mixed"; "m.svg"] (0, 0)%Z (start sample_tree)
              "syntax error: line 1, column 0" H) as (Hp & _ & Hl & _).
  split.
  - exact (f_equal fst Hp).
  - exact (eq_trans (f_equal fst Hl) eq_refl).
Defined.

Lemma summary_counts_witness :
  exists successful failed : Z,
    (successful + failed)%Z
    = len (sorted (rglob sample_tree ["mixed"] "*svg"))
    /\ exists w1,
         log (snd (main sample_svg2png ["mixed"] (start sample_tree)))
         = log w1 ++ summary successful failed (successful + failed).
Proof.
  assert (Hd : is_dir ["mixed"] (fs (start sample_tree)) = true) by reflexivity.
  assert (Hne : sorted (rglob (fs (start sample_tree)) ["mixed"] "*svg") <> [])
    by (vm_compute; discriminate).
  destruct (summary_counts sample_svg2png ["mixed"] (start sample_tree) Hd Hne)
    as (s & k & results & w1 & _ & Hsum & _ & _ & _ & _ & Hmain).
  exists s, k. split; [exact Hsum |]. exists w1. now rewrite Hmain.
Defined.

Lemma process_file_deletes_then_renders_witness :
  fst (process_file sample_svg2png ["good"; "a.svg"] (start sample_tree))
  = Ret true
  /\ log (snd (process_file sample_svg2png ["good"; "a.svg"] (start sample_tree)))
     = [ CallUnlink ["good"; "a.png"];
         CallSvg2png ["good"; "a.svg"] ["good"; "a.png"] 200 200;
         Stdout (processed_line ["good"; "a.svg"]) ]
  /\ fst (process_file sample_svg2png ["good"; "b.svg"] (start sample_tree))
     = Ret true
  /\ exit_status
       (main sample_svg2png ["good"]
          (snd (main sample_svg2png ["good"] (start sample_tree)))) = 0%Z.
Proof.
  assert (Ha : with_suffix ["good"; "a.svg"] ".png" = inr ["good"; "a.png"])
    by reflexivity.
  assert (Hb : with_suffix ["good"; "b.svg"] ".png" = inr ["good"; "b.png"])
    by reflexivity.
  destruct (process_file_deletes_then_renders sample_svg2png
              ["good"; "a.svg"] ["good"; "a.png"] (start sample_tree) Ha)
    as [H1 _].
  destruct (process_file_deletes_then_renders sample_svg2png
              ["good"; "b.svg"] ["good"; "b.png"] (start sample_tree) Hb)
    as [_ H2].
  destruct (H1 eq_refl) as (t & Hu & _ & _ & Hp).
  vm_compute in Hu. injection Hu as <-.
  rewrite Hp, (H2 eq_refl). repeat split.
Defined.


(** ** The order of paths *)

Lemma ascii_compare_refl (c : ascii) : Ascii.compare c c = Eq.
Proof. unfold Ascii.compare. apply N.compare_refl. Qed.

Lemma ascii_compare_lt_trans (a b c : ascii) :
  Ascii.compare a b = Lt -> Ascii.compare b c = Lt -> Ascii.compare a c = Lt.
Proof.
  unfold Ascii.compare. rewrite !N.compare_lt_iff. apply N.lt_trans.
Qed.

Lemma string_compare_refl (s : string) : String.compare s s = Eq.
Proof.
  induction s as [| c s IH]; cbn; [reflexivity |].
  now rewrite ascii_compare_refl.
Qed.

Lemma string_compare_lt_trans (a b c : string) :
  String.compare a b = Lt -> String.compare b c = Lt -> String.compare a c = Lt.
Proof.
  revert b c. induction a as [| x a IH]; intros [| y b] [| z c]; cbn;
    try discriminate; auto.
  destruct (Ascii.compare x y) eqn:Exy; try discriminate;
    destruct (Ascii.compare y z) eqn:Eyz; try discriminate; intros H1 H2.
  - apply Ascii.compare_eq_iff in Exy, Eyz. subst.
    rewrite ascii_compare_refl. eauto.
  - apply Ascii.compare_eq_iff in Exy. subst. now rewrite Eyz.
  - apply Ascii.compare_eq_iff in Eyz. subst. now rewrite Exy.
  - now rewrite (ascii_compare_lt_trans _ _ _ Exy Eyz).
Qed.

Lemma string_ltb_trans (a b c : string) :
  String.ltb a b = true -> String.ltb b c = true -> String.ltb a c = true.
Proof.
  unfold String.ltb. intros H1 H2.
  destruct (String.compare a b) eqn:E1; try discriminate.
  destruct (String.compare b c) eqn:E2; try discriminate.
  now rewrite (string_compare_lt_trans _ _ _ E1 E2).
Qed.

Lemma string_ltb_asym (a b : string) :
  String.ltb a b = true -> String.ltb b a = false.
Proof.
  unfold String.ltb. rewrite (String.compare_antisym b a).
  destruct (String.compare a b); cbn; congruence.
Qed.

Lemma string_ltb_total (a b : string) :
  String.eqb a b = false -> String.ltb a b = false -> String.ltb b a = true.
Proof.
  unfold String.ltb. intros Hne. rewrite (String.compare_antisym b a).
  destruct (String.compare a b) eqn:E; cbn; try congruence.
  apply String.compare_eq_iff in E. apply String.eqb_neq in Hne. congruence.
Qed.

Lemma string_ltb_neq (a b : string) :
  String.ltb a b = true -> String.eqb a b = false.
Proof.
  unfold String.ltb. intros H. apply String.eqb_neq. intros ->.
  now rewrite string_compare_refl in H.
Qed.

Lemma path_ltb_irrefl (p : Path) : path_ltb p p = false.
Proof.
  induction p as [| a p IH]; cbn; [reflexivity |]. now rewrite String.eqb_refl.
Qed.

Lemma path_ltb_asym (p q : Path) : path_ltb p q = true -> path_ltb q p = false.
Proof.
  revert q. induction p as [| a p IH]; intros [| b q]; cbn; try congruence.
  rewrite (String.eqb_sym b a).
  destruct (String.eqb a b); [apply IH | apply string_ltb_asym].
Qed.

Lemma path_ltb_total (p q : Path) :
  path_ltb p q = false -> path_ltb q p = false -> p = q.
Proof.
  revert q. induction p as [| a p IH]; intros [| b q]; cbn; try congruence.
  rewrite (String.eqb_sym b a).
  destruct (String.eqb a b) eqn:E.
  - apply String.eqb_eq in E. subst. intros H1 H2. f_equal. now apply IH.
  - intros H1 H2. rewrite (string_ltb_total _ _ E H1) in H2. discriminate.
Qed.

Lemma path_ltb_trans (p q r : Path) :
  path_ltb p q = true -> path_ltb q r = true -> path_ltb p r = true.
Proof.
  revert q r. induction p as [| a p IH]; intros [| b q] [| c r]; cbn;
    try congruence.
  destruct (String.eqb a b) eqn:Eab.
  - apply String.eqb_eq in Eab. subst b.
    destruct (String.eqb a c); [apply IH | auto].
  - destruct (String.eqb b c) eqn:Ebc.
    + apply String.eqb_eq in Ebc. subst c. rewrite Eab. auto.
    + intros H1 H2. pose proof (string_ltb_trans _ _ _ H1 H2) as H3.
      now rewrite (string_ltb_neq _ _ H3).
Qed.

Lemma path_le_trans (p q r : Path) : path_le p q -> path_le q r -> path_le p r.
Proof.
  unfold path_le. intros H1 H2.
  destruct (path_ltb r p) eqn:E; [| reflexivity].
  destruct (path_ltb p q) eqn:Epq.
  - now rewrite (path_ltb_trans _ _ _ E Epq) in H2.
  - rewrite (path_ltb_total _ _ Epq H1) in E. congruence.
Qed.

Lemma path_le_antisym (p q : Path) : path_le p q -> path_le q p -> p = q.
Proof. unfold path_le. intros H1 H2. now apply path_ltb_total. Qed.

Lemma path_le_refl (p : Path) : path_le p p.
Proof. apply path_ltb_irrefl. Qed.

(** ** [sorted] *)

Lemma insert_perm (x : Path) (l : list Path) : Permutation (insert x l) (x :: l).
Proof.
  induction l as [| y l IH]; cbn; [reflexivity |].
  destruct (path_ltb y x); [| reflexivity].
  rewrite IH. apply perm_swap.
Qed.

Lemma sorted_perm (l : list Path) : Permutation (sorted l) l.
Proof.
  induction l as [| x l IH]; cbn; [reflexivity |].
  rewrite insert_perm. now apply perm_skip.
Qed.

Lemma insert_Sorted (x : Path) (l : list Path) :
  Sorted path_le l -> Sorted path_le (insert x l).
Proof.
  induction l as [| y l IH]; intros Hs; cbn.
  - repeat constructor.
  - apply Sorted_inv in Hs as [Hs Hhd].
    destruct (path_ltb y x) eqn:E.
    + constructor; [now apply IH |].
      destruct l as [| z l]; cbn.
      * constructor. unfold path_le. now apply path_ltb_asym.
      * apply HdRel_inv in Hhd.
        destruct (path_ltb z x); constructor;
          [exact Hhd | unfold path_le; now apply path_ltb_asym].
    + constructor; [constructor; assumption |]. constructor. exact E.
Qed.

Lemma sorted_StronglySorted (l : list Path) : StronglySorted path_le (sorted l).
Proof.
  apply Sorted_StronglySorted; [exact path_le_trans |].
  induction l as [| x l IH]; cbn; [constructor | now apply insert_Sorted].
Qed.

(** A list has one sorted arrangement. *)
Lemma StronglySorted_unique (l1 l2 : list Path) :
  StronglySorted path_le l1 -> StronglySorted path_le l2 ->
  Permutation l1 l2 -> l1 = l2.
Proof.
  revert l2. induction l1 as [| a l1 IH]; intros l2 S1 S2 P.
  - apply Permutation_nil in P. now subst.
  - destruct l2 as [| b l2];
      [apply Permutation_sym, Permutation_nil in P; discriminate |].
    apply StronglySorted_inv in S1 as [S1 F1].
    apply StronglySorted_inv in S2 as [S2 F2].
    assert (Hab : a = b).
    { assert (Ha : In a (b :: l2))
        by (apply (Permutation_in _ P); left; reflexivity).
      assert (Hb : In b (a :: l1))
        by (apply (Permutation_in _ (Permutation_sym P)); left; reflexivity).
      destruct Ha as [-> | Ha]; [reflexivity |].
      destruct Hb as [-> | Hb]; [reflexivity |].
      rewrite Forall_forall in F1, F2.
      apply path_le_antisym; auto. }
    subst b. f_equal. apply IH; auto. now apply Permutation_cons_inv in P.
Qed.

(** The order in which the paths are listed does not show in [sorted]. *)
Lemma sorted_listing_order (l1 l2 : list Path) :
  Permutation l1 l2 -> sorted l1 = sorted l2.
Proof.
  intros P. apply StronglySorted_unique; try apply sorted_StronglySorted.
  rewrite !sorted_perm. exact P.
Qed.

Lemma sorted_In (l : list Path) (p : Path) : In p (sorted l) <-> In p l.
Proof.
  split; apply Permutation_in; [| symmetry]; apply sorted_perm.
Qed.

(** ** Discovery *)

Lemma fnmatch_star (pat s : string) :
  fnmatch (String "*" pat) s
  = fnmatch pat s
    || match s with
       | EmptyString => false
       | String _ s' => fnmatch (String "*" pat) s'
       end.
Proof. destruct s; reflexivity. Qed.

Lemma fnmatch_star_spec (pat s : string) :
  fnmatch (String "*" pat) s = true
  <-> exists pre post, s = (pre ++ post)%string /\ fnmatch pat post = true.
Proof.
  induction s as [| c s IH]; rewrite fnmatch_star.
  - rewrite orb_false_r. split.
    + intros H. exists "", "". auto.
    + intros (pre & post & E & H). destruct pre; [| discriminate].
      cbn in E. now subst post.
  - rewrite orb_true_iff, IH. split.
    + intros [H | (pre & post & E & H)].
      * exists "", (String c s). auto.
      * exists (String c pre), post. cbn. now rewrite E.
    + intros (pre & post & E & H). destruct pre as [| d pre].
      * cbn in E. subst post. now left.
      * cbn in E. injection E as -> ->. right. eauto.
Qed.

Lemma fnmatch_svg_literal (s : string) : fnmatch "svg" s = true <-> s = "svg".
Proof.
  split; [| intros ->; reflexivity].
  destruct s as [| a [| b [| c [| d r]]]]; cbn; try discriminate;
    rewrite ?andb_true_iff, ?Ascii.eqb_eq; intros H;
    repeat match type of H with _ /\ _ => destruct H as [? H] end;
    try discriminate.
  subst. reflexivity.
Qed.

(** The pattern of [find_files] matches the names that end in the three
    letters [svg], whatever stands before them. *)
Lemma fnmatch_svg (s : string) : fnmatch "*svg" s = true <-> ends_with "svg" s.
Proof.
  rewrite fnmatch_star_spec. unfold ends_with. split.
  - intros (pre & post & E & H). apply fnmatch_svg_literal in H. subst. eauto.
  - intros (pre & E). exists pre, "svg". auto.
Qed.

Lemma walk_nonempty (n : node) (rel : Path) : In rel (walk n) -> rel <> [].
Proof.
  destruct n as [data | es]; cbn; [tauto |].
  rewrite in_flat_map. intros ([c n'] & _ & [<- | H]); [discriminate |].
  apply in_map_iff in H as (r & <- & _). discriminate.
Qed.

(** Everything that exists below a node is listed by [walk]. *)
Lemma walk_complete (rel : Path) (n x : node) :
  rel <> [] -> lookup rel n = Some x -> In rel (walk n).
Proof.
  revert n. induction rel as [| c rel IH]; intros n Hne H; [congruence |].
  cbn in H. destruct n as [data | es]; [discriminate |].
  destruct (find_entry c es) as [n' |] eqn:Hf; [| discriminate].
  assert (Hin : In (c, n') es).
  { clear - Hf. induction es as [| [c' m] es IHes]; cbn in Hf; [discriminate |].
    destruct (String.eqb_spec c' c) as [-> | _].
    - injection Hf as ->. now left.
    - right. auto. }
  cbn [walk]. apply in_flat_map. exists (c, n'). split; [exact Hin |].
  cbn [fst snd]. destruct rel as [| c2 rel2]; [now left |].
  right. apply in_map. apply IH; [discriminate | exact H].
Qed.

Lemma name_app (d rel : Path) : rel <> [] -> name (d ++ rel) = name rel.
Proof.
  intros H. unfold name.
  destruct (exists_last H) as (r & c & ->).
  now rewrite app_assoc, !last_last.
Qed.

(** What [rglob] returns lies below the directory and matches. *)
Lemma rglob_sound (t : node) (dir : Path) (pat : string) (p : Path) :
  In p (rglob t dir pat) ->
  fnmatch pat (name p) = true
  /\ exists rel, p = dir ++ rel /\ rel <> [].
Proof.
  unfold rglob. destruct (lookup dir t) as [n |]; [| intros []].
  rewrite in_map_iff. intros (rel & <- & H).
  apply filter_In in H as [Hw Hm].
  pose proof (walk_nonempty _ _ Hw) as Hne.
  rewrite (name_app _ _ Hne). eauto.
Qed.

(** Whatever exists below the directory under a matching name is returned. *)
Lemma rglob_complete (t : node) (dir rel : Path) (pat : string) (x : node) :
  rel <> [] ->
  lookup (dir ++ rel) t = Some x ->
  fnmatch pat (name rel) = true ->
  In (dir ++ rel) (rglob t dir pat).
Proof.
  intros Hne Hl Hm. unfold rglob.
  assert (Hd : exists n, lookup dir t = Some n /\ lookup rel n = Some x).
  { clear - Hl. revert t Hl. induction dir as [| c dir IH]; intros t Hl.
    - exists t. auto.
    - cbn [app lookup] in Hl |- *. destruct t as [data | es]; [discriminate |].
      destruct (find_entry c es) as [n' |]; [| discriminate]. auto. }
  destruct Hd as (n & -> & Hr).
  apply in_map. apply filter_In. split; [| exact Hm].
  now apply (walk_complete rel n x).
Qed.

(** ** The log of a run *)

Lemma since_app (w w' : World) (l : list event) :
  log w' = log w ++ l -> since w w' = l.
Proof.
  intros E. unfold since. rewrite E, skipn_app, skipn_all, Nat.sub_diag.
  reflexivity.
Qed.

Lemma rendered_app (l1 l2 : list event) :
  rendered (l1 ++ l2) = rendered l1 ++ rendered l2.
Proof. apply flat_map_app. Qed.

Lemma write_targets_app (l1 l2 : list event) :
  write_targets (l1 ++ l2) = write_targets l1 ++ write_targets l2.
Proof. apply flat_map_app. Qed.

Lemma rendered_calls (f : Path) (calls : list event) :
  Forall (call_for f) calls -> forall q, In q (rendered calls) -> q = f.
Proof.
  induction 1 as [| e calls (out & _ & [-> | ->]) _ IH]; cbn; intros q Hq.
  - destruct Hq.
  - auto.
  - destruct Hq as [<- | Hq]; auto.
Qed.

Lemma rendered_report (f : Path) (ok : bool) (e : event) :
  report_of f ok e -> rendered [e] = [].
Proof. destruct ok; [intros -> | intros (msg & ->)]; reflexivity. Qed.

(** The renderer is called for the files of the list only. *)
Lemma converted_in_order_rendered (files : list Path) (results : list bool)
    (seg : list event) :
  converted_in_order files results seg ->
  forall q, In q (rendered seg) -> In q files.
Proof.
  induction 1 as [| f ok calls e files oks rest Hc Hr _ IH]; intros q Hq.
  - destruct Hq.
  - change (calls ++ e :: rest) with (calls ++ [e] ++ rest) in Hq.
    rewrite !rendered_app, (rendered_report _ _ _ Hr) in Hq. cbn [app] in Hq.
    apply in_app_or in Hq as [Hq | Hq].
    + left. symmetry. now apply (rendered_calls f calls).
    + right. auto.
Qed.

Section Order.

Variable svg2png : renderer.

Lemma find_files_run (input : Path) (w : World) :
  find_files input w
  = (Ret (sorted (rglob (fs w) input "*svg")),
     emit (CallRglob input "*svg") w).
Proof. reflexivity. Qed.

(** X13: a run that discovers nothing says so on standard output and exits
    with status 0; it calls neither [unlink] nor the renderer and leaves the
    tree as it was. *)
Lemma main_no_files (input : Path) (w : World) :
  is_dir input (fs w) = true ->
  rglob (fs w) input "*svg" = [] ->
  main svg2png input w
  = (Exit 0,
     emits [ CallRglob input "*svg";
             Stdout ("No files found in " ++ path_str input)%string ] w).
Proof.
  intros Hd Hn. rewrite main_cases, (is_dir_exists _ _ Hd), Hd, Hn.
  cbn [negb sorted fold_right]. unfold emits, emit. cbn [fs log].
  now rewrite <- app_assoc.
Qed.

(** A run that reaches discovery converts what [find_files] returned, in
    the order of that list. *)
Lemma main_converts_in_order (input : Path) (w : World) :
  is_dir input (fs w) = true ->
  processes_in_order svg2png input w (sorted (rglob (fs w) input "*svg")).
Proof.
  intros Hd. unfold processes_in_order.
  rewrite main_cases, (is_dir_exists _ _ Hd), Hd. cbn [negb]. cbn zeta.
  destruct (sorted (rglob (fs w) input "*svg")) as [| f files] eqn:Hs.
  - exists [], [CallRglob input "*svg";
                Stdout ("No files found in " ++ path_str input)%string], [], [].
    split; [| repeat split; constructor].
    apply since_app. cbn [snd emit log]. now rewrite <- app_assoc.
  - set (w2 := emit _ (emit (CallRglob input "*svg") w)).
    destruct (conversions_log svg2png (f :: files) w2) as (seg & Hl & Hc).
    exists (fst (conversions svg2png (f :: files) w2)),
      [CallRglob input "*svg";
       Stdout ("Found " ++ str_int (len (f :: files))
               ++ " file(s) to process")%string],
      seg,
      (summary (count true (fst (conversions svg2png (f :: files) w2)))
               (count false (fst (conversions svg2png (f :: files) w2)))
               (len (f :: files))).
    split; [| repeat split; assumption].
    apply since_app. cbn [snd emits log]. rewrite Hl.
    unfold w2, emit. cbn [log]. now rewrite <- !app_assoc.
Qed.

End Order.

(** ** Letter case *)

Lemma lower_length (s : string) : String.length (lower s) = String.length s.
Proof. induction s as [| c s IH]; cbn; congruence. Qed.

Lemma lower_ascii_dot (c : ascii) : lower_ascii c = "."%char -> c = "."%char.
Proof.
  destruct c as [[] [] [] [] [] [] [] []]; intros H; try reflexivity;
    vm_compute in H; discriminate H.
Qed.

Lemma append_inv_tail (s1 s2 t1 t2 : string) :
  (s1 ++ t1)%string = (s2 ++ t2)%string ->
  String.length t1 = String.length t2 ->
  s1 = s2 /\ t1 = t2.
Proof.
  revert s2. induction s1 as [| c s1 IH]; intros [| d s2] E L; cbn in E.
  - auto.
  - subst t1. cbn in L. rewrite append_length in L. lia.
  - subst t2. cbn in L. rewrite append_length in L. lia.
  - injection E as -> E. destruct (IH _ E L) as [-> ->]. auto.
Qed.

Lemma string_app_assoc (a b c : string) :
  ((a ++ b) ++ c)%string = (a ++ (b ++ c))%string.
Proof. induction a as [| x a IH]; cbn; [reflexivity | now rewrite IH]. Qed.

(** A suffix that is [.svg] up to letter case only does not end a name the
    pattern matches. *)
Lemma other_case_no_match (p : Path) :
  lower (suffix p) = ".svg" -> suffix p <> ".svg" ->
  fnmatch "*svg" (name p) = false.
Proof.
  intros Hl Hne. destruct (fnmatch "*svg" (name p)) eqn:E; [| reflexivity].
  exfalso. apply Hne. apply fnmatch_svg in E as (pre & E).
  rewrite name_stem_suffix in E.
  pose proof (lower_length (suffix p)) as Hlen. rewrite Hl in Hlen.
  destruct (suffix p) as [| a [| b [| c [| d [| e r]]]]]; try discriminate Hlen.
  cbn in Hl. injection Hl as Ha _ _ _. apply lower_ascii_dot in Ha. subst a.
  change (String "." (String b (String c (String d ""))))
    with ("." ++ String b (String c (String d "")))%string in E.
  assert (E' : ((stem p ++ ".") ++ String b (String c (String d "")))%string
               = (pre ++ "svg")%string).
  { rewrite <- E. apply string_app_assoc. }
  apply append_inv_tail in E' as [_ ->]; reflexivity.
Qed.

Section Skipped.

Variable svg2png : renderer.

(** The renderer is called for discovered files only. *)
Lemma main_rendered (input : Path) (w : World) (q : Path) :
  In q (rendered (since w (snd (main svg2png input w)))) ->
  In q (sorted (rglob (fs w) input "*svg")).
Proof.
  destruct (is_dir input (fs w)) eqn:Hd.
  - destruct (main_converts_in_order svg2png input w Hd)
      as (results & before & seg & after & -> & Hc & Hb & Ha).
    rewrite !rendered_app, Hb, Ha, app_nil_r. cbn [app].
    now apply (converted_in_order_rendered _ _ _ Hc).
  - rewrite main_cases, Hd.
    destruct (path_exists input (fs w)); cbn [negb snd];
      erewrite since_app by reflexivity; intros [].
Qed.

(** C8: a file whose extension is [.svg] in another letter case (such as
    [.SVG]) is skipped without notice: it is not in the list
    [find_files] returns, so the loop of [main], which converts and counts
    the files of that list, never renders it. *)
Theorem differently_cased_extension_skipped (input p : Path) (w : World) :
  lower (suffix p) = ".svg" ->
  suffix p <> ".svg" ->
  let files := sorted (rglob (fs w) input "*svg") in
  fst (find_files input w) = Ret files
  /\ ~ In p files
  /\ ~ In p (rendered (since w (snd (main svg2png input w))))
  /\ (is_dir input (fs w) = true -> processes_in_order svg2png input w files).
Proof.
  intros Hl Hne files.
  assert (Hnot : ~ In p files).
  { unfold files. rewrite sorted_In. intros Hin.
    apply rglob_sound in Hin as [Hm _].
    now rewrite (other_case_no_match p Hl Hne) in Hm. }
  split; [reflexivity |]. split; [exact Hnot |]. split.
  - intros Hin. apply Hnot. now apply main_rendered in Hin.
  - apply main_converts_in_order.
Qed.

(** C6: the order of processing does not depend on the order in which the
    traversal lists the paths.  Two runs whose traversals list the same
    paths, in whatever order, get the same list from [find_files]; it is
    sorted by path, and both runs convert the files in the order of that
    list. *)
Theorem processing_order_deterministic (input : Path) (w1 w2 : World) :
  is_dir input (fs w1) = true ->
  is_dir input (fs w2) = true ->
  Permutation (rglob (fs w1) input "*svg") (rglob (fs w2) input "*svg") ->
  exists files,
    fst (find_files input w1) = Ret files
    /\ fst (find_files input w2) = Ret files
    /\ StronglySorted path_le files
    /\ processes_in_order svg2png input w1 files
    /\ processes_in_order svg2png input w2 files.
Proof.
  intros Hd1 Hd2 P. exists (sorted (rglob (fs w1) input "*svg")).
  split; [reflexivity |].
  split; [rewrite find_files_run; cbn [fst];
          now rewrite (sorted_listing_order _ _ P) |].
  split; [apply sorted_StronglySorted |].
  split; [now apply main_converts_in_order |].
  rewrite (sorted_listing_order _ _ P). now apply main_converts_in_order.
Qed.

End Skipped.

Lemma differently_cased_extension_skipped_witness :
  is_file ["mixed"; "sub"; "K.SVG"] sample_tree = true
  /\ ~ In ["mixed"; "sub"; "K.SVG"] (sorted (rglob sample_tree ["mixed"] "*svg"))
  /\ ~ In ["mixed"; "sub"; "K.SVG"]
          (rendered (since (start sample_tree)
                       (snd (main sample_svg2png ["mixed"] (start sample_tree))))).
Proof.
  assert (Hl : lower (suffix ["mixed"; "sub"; "K.SVG"]) = ".svg") by reflexivity.
  assert (Hne : suffix ["mixed"; "sub"; "K.SVG"] <> ".svg")
    by (vm_compute; discriminate).
  destruct (differently_cased_extension_skipped sample_svg2png ["mixed"]
              ["mixed"; "sub"; "K.SVG"] (start sample_tree) Hl Hne)
    as (_ & H1 & H2 & _).
  split; [reflexivity |]. split; assumption.
Defined.

Lemma processing_order_deterministic_witness :
  rglob sample_tree ["mixed"] "*svg"
  = rev (rglob sample_tree_relisted ["mixed"] "*svg")
  /\ fst (find_files ["mixed"] (start sample_tree))
     = fst (find_files ["mixed"] (start sample_tree_relisted))
  /\ processes_in_order sample_svg2png ["mixed"] (start sample_tree_relisted)
       [["mixed"; "m.svg"]; ["mixed"; "sub"; "k.svg"]; ["mixed"; "z.svg"]].
Proof.
  assert (E : rglob sample_tree ["mixed"] "*svg"
              = rev (rglob sample_tree_relisted ["mixed"] "*svg")) by reflexivity.
  assert (P : Permutation (rglob (fs (start sample_tree)) ["mixed"] "*svg")
                (rglob (fs (start sample_tree_relisted)) ["mixed"] "*svg")).
  { cbn [fs start]. rewrite E. symmetry. apply Permutation_rev. }
  destruct (processing_order_deterministic sample_svg2png ["mixed"]
              (start sample_tree) (start sample_tree_relisted)
              eq_refl eq_refl P) as (files & H1 & H2 & _ & _ & H4).
  split; [exact E |]. split; [now rewrite H1, H2 |].
  assert (Hf : files = [["mixed"; "m.svg"]; ["mixed"; "sub"; "k.svg"];
                        ["mixed"; "z.svg"]]).
  { vm_compute in H1. now injection H1. }
  now rewrite <- Hf.
Defined.

(** C1 (the code differs): on [stray_tree], [find_files] returns, next to
    the drawing, a regular file that has no extension at all and a
    directory: the pattern [*svg] asks for a name that ends in the letters
    [svg], not for the extension [.svg], and [rglob] does not tell files from
    directories.  With the pattern [*.svg] the drawing alone is returned. *)
Theorem find_files_returns_other_entries :
  fst (find_files ["d"] (start stray_tree))
  = Ret [["d"; "notsvg"]; ["d"; "svg"]; ["d"; "svg"; "logo.svg"]]
  /\ is_file ["d"; "notsvg"] stray_tree = true
  /\ suffix ["d"; "notsvg"] = ""
  /\ is_dir ["d"; "svg"] stray_tree = true
  /\ sorted (rglob stray_tree ["d"] "*.svg") = [["d"; "svg"; "logo.svg"]].
Proof. repeat split. Qed.

(** C7 (the code differs): [d/] of [plain_tree] holds two text files and no
    SVG file, yet discovery returns one of them, [main] announces one file,
    hands it to the renderer and, the renderer refusing it, exits with
    status 1. *)
Theorem main_on_text_files :
  is_dir ["d"] plain_tree = true
  /\ rglob plain_tree ["d"] "*.svg" = []
  /\ fst (find_files ["d"] (start plain_tree)) = Ret [["d"; "notsvg"]]
  /\ since (start plain_tree) (snd (main sample_svg2png ["d"] (start plain_tree)))
     = [ CallRglob ["d"] "*svg";
         Stdout "Found 1 file(s) to process";
         CallSvg2png ["d"; "notsvg"] ["d"; "notsvg.png"] 200 200;
         Stderr "Exception processing d/notsvg: syntax error: line 1, column 0" ]
       ++ summary 0 1 1
  /\ exit_status (main sample_svg2png ["d"] (start plain_tree)) = 1%Z.
Proof. repeat split. Qed.

(** ** A directory of valid drawings *)

Lemma is_file_read (p : Path) (t : node) :
  is_file p t = match read p t with Some _ => true | None => false end.
Proof. unfold is_file, read. now destruct (lookup p t) as [[] |]. Qed.

Lemma with_suffix_png_path (f : Path) :
  is_empty (name f) = false -> with_suffix f ".png" = inr (png_path f).
Proof. intros H. now rewrite with_suffix_png, H. Qed.

Lemma svg_suffix_name (f : Path) :
  suffix f = ".svg" ->
  name f = (stem f ++ ".svg")%string /\ is_empty (name f) = false /\ f <> [].
Proof.
  intros H. pose proof (name_stem_suffix f) as E. rewrite H in E.
  assert (Hn : is_empty (name f) = false).
  { rewrite E. apply is_empty_length. rewrite append_length. cbn. lia. }
  repeat split; auto. intros ->. discriminate Hn.
Qed.

Lemma png_path_suffix (f : Path) :
  is_empty (name f) = false -> suffix (png_path f) = ".png".
Proof. intros H. apply suffix_png. now apply stem_nonempty. Qed.

(** Distinct drawings have distinct output paths. *)
Lemma png_path_inj (f g : Path) :
  suffix f = ".svg" -> suffix g = ".svg" -> png_path f = png_path g -> f = g.
Proof.
  intros Hf Hg E.
  destruct (svg_suffix_name f Hf) as (Nf & _ & Ff).
  destruct (svg_suffix_name g Hg) as (Ng & _ & Fg).
  unfold png_path in E. apply app_inj_tail in E as [Ep Es].
  apply append_inv_tail in Es as [Es _]; [| reflexivity].
  rewrite (nonempty_snoc f Ff), (nonempty_snoc g Fg), Nf, Ng, Ep, Es.
  reflexivity.
Qed.

Lemma read_parent_is_dir (f : Path) (t : node) (data : string) :
  f <> [] -> read f t = Some data -> is_dir (parent f) t = true.
Proof.
  intros Hne Hr. unfold read in Hr.
  destruct (lookup f t) as [[d | es] |] eqn:Hl; try discriminate.
  rewrite (nonempty_snoc f Hne) in Hl.
  destruct (lookup_snoc _ _ _ _ Hl) as (es & Hp & _).
  unfold is_dir. now rewrite Hp.
Qed.

Section ValidDrawings.

Variable svg2png : renderer.

(** Which contents are valid drawings, and what the renderer does with
    one: it returns normally, having written an image at [write_to] and
    changed nothing else. *)
Variable valid : string -> bool.
Hypothesis svg2png_valid :
  forall (url out : Path) (t : node) (data : string),
    read url t = Some data -> valid data = true ->
    is_dir (parent out) t = true -> path_exists out t = false ->
    exists png t',
      svg2png url out 200%Z 200%Z t = (None, t')
      /\ write_file out png t = Some t'.

Lemma convertible_step (all : list Path) (f : Path) (w : World) :
  In f all -> convertible valid all (fs w) ->
  exists w' calls,
    process_file svg2png f w = (Ret true, w')
    /\ convertible valid all (fs w')
    /\ (forall o, is_file o (fs w) = true -> is_file o (fs w') = true)
    /\ is_file (png_path f) (fs w') = true
    /\ log w' = log w ++ calls
    /\ write_targets calls = [png_path f].
Proof.
  intros Hin Hall. destruct (Hall f Hin) as (Hs & (data & Hr & Hv) & Hnd).
  destruct (svg_suffix_name f Hs) as (_ & Hn & Hne).
  pose proof (with_suffix_png_path f Hn) as Hout.
  set (out := png_path f) in *.
  assert (Hfo : f <> out).
  { intros E. pose proof (png_path_suffix f Hn) as Hp. fold out in Hp.
    rewrite <- E, Hs in Hp. discriminate. }
  assert (Hpar : parent out = parent f) by apply parent_snoc.
  (* the tree [t1] the renderer is called on, and what it keeps *)
  assert (Hpre : exists t1 pre,
             path_exists out t1 = false
             /\ (forall p, p <> out -> read p t1 = read p (fs w))
             /\ (forall p, is_dir p t1 = is_dir p (fs w))
             /\ process_file svg2png f w
                = (Ret (succeeded (fst (svg2png f out 200%Z 200%Z t1))),
                   mkWorld (snd (svg2png f out 200%Z 200%Z t1))
                     (log w ++ pre
                      ++ [CallSvg2png f out 200 200;
                          report_event f (fst (svg2png f out 200%Z 200%Z t1))]))
             /\ write_targets pre = []).
  { destruct (path_exists out (fs w)) eqn:Hex.
    - assert (Hf : is_file out (fs w) = true).
      { unfold path_exists, is_dir, is_file in *.
        now destruct (lookup out (fs w)) as [[] |]. }
      destruct (process_file_existing_output svg2png f out w Hout Hf)
        as (t1 & _ & Hg & Hrd & Hd & Hp).
      exists t1, [CallUnlink out]. auto.
    - exists (fs w), []. repeat split; auto.
      now apply process_file_fresh_output. }
  destruct Hpre as (t1 & pre & Hg & Hrd & Hd & Hp & Hw).
  destruct (svg2png_valid f out t1 data) as (png & t2 & Hrun & Hwr); auto.
  { now rewrite Hrd by (intros E; now apply Hfo). }
  { rewrite Hd, Hpar. now apply (read_parent_is_dir f (fs w) data). }
  rewrite Hrun in Hp. cbn [fst snd succeeded report_event] in Hp.
  destruct (write_file_spec _ _ _ _ Hwr) as (Hnew & Hkeep & Hdirs).
  eexists. eexists. split; [exact Hp |]. cbn [fs log].
  split; [| split; [| split; [| split]]].
  - intros g Hg'. destruct (Hall g Hg') as (Hgs & (d & Hgr & Hgv) & Hgd).
    split; [exact Hgs |]. split.
    + exists d. split; [| exact Hgv].
      assert (Hgo : g <> out).
      { intros E. destruct (svg_suffix_name g Hgs) as (_ & _ & _).
        pose proof (png_path_suffix f Hn) as Hp'. fold out in Hp'.
        rewrite <- E, Hgs in Hp'. discriminate. }
      now rewrite Hkeep, Hrd.
    + now rewrite Hdirs, Hd.
  - intros o Ho. rewrite is_file_read in *.
    destruct (list_eq_dec string_dec o out) as [-> | Hne'].
    + now rewrite Hnew.
    + now rewrite Hkeep, Hrd.
  - rewrite is_file_read. now rewrite Hnew.
  - reflexivity.
  - rewrite write_targets_app, Hw. reflexivity.
Qed.

Lemma convertible_loop (all rest : list Path) (w : World) :
  incl rest all -> convertible valid all (fs w) ->
  forallb (fun ok => ok) (fst (conversions svg2png rest w)) = true
  /\ (forall o, is_file o (fs w) = true ->
                is_file o (fs (snd (conversions svg2png rest w))) = true)
  /\ (forall f, In f rest ->
                is_file (png_path f) (fs (snd (conversions svg2png rest w)))
                = true)
  /\ exists seg,
       log (snd (conversions svg2png rest w)) = log w ++ seg
       /\ write_targets seg = map png_path rest.
Proof.
  revert w. induction rest as [| f rest IH]; intros w Hincl Hall.
  - cbn. split; [reflexivity |]. split; [auto |]. split; [intros f [] |].
    exists []. now rewrite app_nil_r.
  - cbn [conversions fst snd].
    assert (Hin : In f all) by (apply Hincl; now left).
    destruct (convertible_step all f w Hin Hall)
      as (w' & calls & Hp & Hall' & Hmono & Hout & Hlog & Hw).
    rewrite Hp. cbn [fst snd].
    destruct (IH w') as (Hok & Hmono' & Hdone & seg & Hlog' & Hw');
      [intros g Hg; apply Hincl; now right | exact Hall' |].
    split; [cbn; exact Hok |]. split; [auto |]. split.
    + intros g [<- | Hg]; auto.
    + exists (calls ++ seg). split.
      * now rewrite Hlog', Hlog, app_assoc.
      * rewrite write_targets_app, Hw, Hw'. reflexivity.
Qed.

(** X14: the output path of a discovered entry is its path with the suffix
    replaced by [.png]: same directory, same stem.  When the entries
    [find_files] returns are N regular files named [*.svg], each listed
    once, whose content the renderer accepts, and no directory stands at an
    output path, a run writes N images, one at the output path of each entry
    and nowhere else, these N paths are distinct, each holds a file when the
    run ends, and the exit status is 0. *)
Theorem valid_drawings_produce_pngs (input : Path) (w : World) :
  let files := sorted (rglob (fs w) input "*svg") in
  (forall f, In f files ->
     with_suffix f ".png" = inr (png_path f)
     /\ name f = (stem f ++ suffix f)%string
     /\ name (png_path f) = (stem f ++ ".png")%string
     /\ stem (png_path f) = stem f
     /\ parent (png_path f) = parent f)
  /\ (is_dir input (fs w) = true ->
      NoDup (rglob (fs w) input "*svg") ->
      convertible valid files (fs w) ->
      let r := main svg2png input w in
      exit_status r = 0%Z
      /\ write_targets (since w (snd r)) = map png_path files
      /\ NoDup (map png_path files)
      /\ List.length (map png_path files) = List.length files
      /\ (forall f, In f files -> is_file (png_path f) (fs (snd r)) = true)).
Proof.
  intros files. split.
  - intros f Hin. unfold files in Hin. rewrite sorted_In in Hin.
    apply rglob_sound in Hin as [Hm _]. apply fnmatch_svg in Hm as (pre & E).
    assert (Hn : is_empty (name f) = false).
    { rewrite E. apply is_empty_length. rewrite append_length. cbn. lia. }
    split; [now apply with_suffix_png_path |].
    split; [apply name_stem_suffix |].
    split; [apply name_snoc |].
    split; [apply stem_png; now apply stem_nonempty | apply parent_snoc].
  - intros Hd Hnd Hall r.
    assert (Hnd' : NoDup (map png_path files)).
    { assert (Hf : NoDup files)
        by (apply (Permutation_NoDup (Permutation_sym (sorted_perm _)) Hnd)).
      clear - Hf Hall. induction files as [| f files IH]; [constructor |].
      cbn. apply NoDup_cons_iff in Hf as [Hnin Hf]. constructor.
      - intros Hin. apply in_map_iff in Hin as (g & E & Hg). apply Hnin.
        assert (f = g); [| now subst].
        apply png_path_inj; [apply Hall; now left
                            | apply Hall; now right | now symmetry].
      - apply IH; [| exact Hf]. intros g Hg. apply Hall. now right. }
    unfold r. rewrite main_cases, (is_dir_exists _ _ Hd), Hd.
    cbn [negb]. cbn zeta. fold files.
    destruct files as [| f0 files0] eqn:Hfiles.
    + cbn [snd exit_status fst map].
      erewrite since_app
        by (unfold emit; cbn [log]; rewrite <- app_assoc; reflexivity).
      repeat split; auto.
    + set (w2 := emit _ (emit (CallRglob input "*svg") w)).
      destruct (convertible_loop (f0 :: files0) (f0 :: files0) w2)
        as (Hok & _ & Hdone & seg & Hlog & Hw);
        [apply incl_refl | exact Hall |].
      split.
      * unfold exit_status. cbn [fst]. rewrite count_false_pos.
        now rewrite existsb_negb_forallb, Hok.
      * cbn [snd emits fs]. split; [| split; [exact Hnd' | split]].
        -- match goal with
           | |- context [emits ?sm ?wl] =>
               rewrite (since_app w (emits sm wl)
                          ([CallRglob input "*svg";
                            Stdout ("Found " ++ str_int (len (f0 :: files0))
                                    ++ " file(s) to process")%string]
                           ++ seg ++ sm))
           end.
           ++ rewrite !write_targets_app, Hw. cbn. now rewrite app_nil_r.
           ++ unfold emits. cbn [log]. rewrite Hlog. unfold w2, emit.
              cbn [log]. now rewrite <- !app_assoc.
        -- now rewrite length_map.
        -- exact Hdone.
Qed.

End ValidDrawings.

(** The sample renderer does with a valid drawing what is asked of a
    renderer. *)
Lemma sample_svg2png_valid (url out : Path) (t : node) (data : string) :
  read url t = Some data -> prefix "<svg" data = true ->
  is_dir (parent out) t = true -> path_exists out t = false ->
  exists png t',
    sample_svg2png url out 200%Z 200%Z t = (None, t')
    /\ write_file out png t = Some t'.
Proof.
  intros Hr Hv Hp Hex. unfold sample_svg2png. unfold read in Hr.
  destruct (lookup url t) as [[d | es] |]; try discriminate.
  injection Hr as ->. rewrite Hv.
  assert (Hw : exists t', write_file out "PNG" t = Some t').
  { unfold write_file. destruct out as [| c out']; [discriminate Hex |].
    rewrite Hp.
    assert (Hd : is_dir (c :: out') t = false).
    { unfold path_exists, is_dir in *.
      now destruct (lookup (c :: out') t). }
    rewrite Hd. cbn [negb andb]. eauto. }
  destruct Hw as (t' & Hw). rewrite Hw. eauto.
Qed.

Lemma valid_drawings_produce_pngs_witness :
  exit_status (main sample_svg2png ["good"] (start sample_tree)) = 0%Z
  /\ write_targets (since (start sample_tree)
                      (snd (main sample_svg2png ["good"] (start sample_tree))))
     = [["good"; "a.png"]; ["good"; "b.png"]]
  /\ is_file ["good"; "b.png"]
       (fs (snd (main sample_svg2png ["good"] (start sample_tree)))) = true
  /\ stem (png_path ["good"; "b.svg"]) = stem ["good"; "b.svg"].
Proof.
  destruct (valid_drawings_produce_pngs sample_svg2png (prefix "<svg")
              sample_svg2png_valid ["good"] (start sample_tree)) as [Ha Hb].
  assert (Hd : is_dir ["good"] (fs (start sample_tree)) = true) by reflexivity.
  assert (Hn : NoDup (rglob (fs (start sample_tree)) ["good"] "*svg")).
  { vm_compute. repeat constructor; cbn; intuition discriminate. }
  assert (Hc : convertible (prefix "<svg")
                 (sorted (rglob (fs (start sample_tree)) ["good"] "*svg"))
                 (fs (start sample_tree))).
  { intros f Hf. vm_compute in Hf. destruct Hf as [<- | [<- | []]].
    - split; [reflexivity |]. split; [| reflexivity].
      exists "<svg><circle/></svg>". split; reflexivity.
    - split; [reflexivity |]. split; [| reflexivity].
      exists "<svg><rect/></svg>". split; reflexivity. }
  destruct (Hb Hd Hn Hc) as (H1 & H2 & _ & _ & H5).
  split; [exact H1 |]. split; [exact H2 |]. split.
  - apply (H5 ["good"; "b.svg"]). vm_compute. auto.
  - apply (Ha ["good"; "b.svg"]). vm_compute. auto.
Defined.

(** C4 (the code differs): [tests/] of [nested_tree] holds one valid
    drawing, [tests/svg/logo.svg], and nothing else but the directory it is
    in.  The output path of the drawing is the one the claim gives and its
    image is written there; but [find_files] returns the directory
    [tests/svg] too, its conversion fails, and the run ends with one failure
    and exit status 1.  With the pattern [*.svg] the drawing alone is
    discovered. *)
Theorem valid_drawing_in_svg_directory :
  read ["tests"; "svg"; "logo.svg"] nested_tree = Some "<svg/>"
  /\ sorted (rglob nested_tree ["tests"] "*.svg")
     = [["tests"; "svg"; "logo.svg"]]
  /\ fst (find_files ["tests"] (start nested_tree))
     = Ret [["tests"; "svg"]; ["tests"; "svg"; "logo.svg"]]
  /\ with_suffix ["tests"; "svg"; "logo.svg"] ".png"
     = inr ["tests"; "svg"; "logo.png"]
  /\ since (start nested_tree)
       (snd (main sample_svg2png ["tests"] (start nested_tree)))
     = [ CallRglob ["tests"] "*svg";
         Stdout "Found 2 file(s) to process";
         CallSvg2png ["tests"; "svg"] ["tests"; "svg.png"] 200 200;
         Stderr "Exception processing tests/svg: [Errno 21] Is a directory: 'tests/svg'";
         CallSvg2png ["tests"; "svg"; "logo.svg"]
                     ["tests"; "svg"; "logo.png"] 200 200;
         Stdout "✓ Processed: tests/svg/logo.svg" ]
       ++ summary 1 1 2
  /\ is_file ["tests"; "svg"; "logo.png"]
       (fs (snd (main sample_svg2png ["tests"] (start nested_tree)))) = true
  /\ exit_status (main sample_svg2png ["tests"] (start nested_tree)) = 1%Z.
Proof. repeat split. Qed.

(** ** Listing order *)

Lemma same_node_refl (o : option node) : same_node o o.
Proof. destruct o; cbn; [apply relisted_refl | exact I]. Qed.

Lemma same_node_trans (o1 o2 o3 : option node) :
  same_node o1 o2 -> same_node o2 o3 -> same_node o1 o3.
Proof.
  destruct o1, o2, o3; cbn; try tauto. apply relisted_trans.
Qed.

Lemma same_below_refl (o : option node) : same_below o o.
Proof.
  destruct o; cbn; [| exact I].
  split; [apply relisted_refl | intros p; apply same_node_refl].
Qed.

Lemma same_below_trans (o1 o2 o3 : option node) :
  same_below o1 o2 -> same_below o2 o3 -> same_below o1 o3.
Proof.
  destruct o1, o2, o3; cbn; try tauto.
  intros [R1 L1] [R2 L2]. split; [now apply relisted_trans with n0 |].
  intros p. now apply same_node_trans with (lookup p n0).
Qed.

Lemma Permutation_filter {A} (f : A -> bool) (l l' : list A) :
  Permutation l l' -> Permutation (filter f l) (filter f l').
Proof.
  induction 1 as [| x l l' _ IH | x y l | l1 l2 l3 _ IH1 _ IH2]; cbn.
  - constructor.
  - destruct (f x); [now constructor | exact IH].
  - destruct (f x), (f y); try reflexivity. apply perm_swap.
  - now transitivity (filter f l2).
Qed.

(** Relisting permutes what [walk] lists and keeps what [lookup] finds. *)
Lemma relisted_walk_lookup :
  (forall n1 n2, relisted n1 n2 ->
     Permutation (walk n1) (walk n2)
     /\ forall p, same_node (lookup p n1) (lookup p n2))
  /\ (forall es1 es2, relisted_entries es1 es2 ->
        Permutation (walk (Dir es1)) (walk (Dir es2))
        /\ forall c, same_below (find_entry c es1) (find_entry c es2)).
Proof.
  apply relisted_mutual.
  - intros n. split; [reflexivity | intros p; apply same_node_refl].
  - intros n1 n2 n3 _ [P1 L1] _ [P2 L2]. split.
    + now transitivity (walk n2).
    + intros p. now apply same_node_trans with (lookup p n2).
  - intros es es' R [P L]. split; [exact P |].
    intros [| c p]; cbn [lookup same_node]; [now apply relisted_dir |].
    specialize (L c). unfold same_below in L.
    destruct (find_entry c es), (find_entry c es'); try tauto.
    destruct L as [_ L]. apply L.
  - split; [reflexivity | intros c; exact I].
  - intros c n n' es es' R [P L] _ [Pes Les]. split.
    + cbn [walk flat_map fst snd] in *. apply Permutation_app; [| exact Pes].
      apply perm_skip. now apply Permutation_map.
    + intros c0. cbn [find_entry].
      destruct (String.eqb c c0); [cbn; auto | apply Les].
  - intros [cx nx] [cy ny] es Hne. cbn [fst] in Hne. split.
    + cbn [walk flat_map]. rewrite !app_assoc.
      apply Permutation_app; [apply Permutation_app_comm | reflexivity].
    + intros c0. cbn [find_entry].
      destruct (String.eqb_spec cx c0) as [-> | Hx];
        destruct (String.eqb_spec cy c0) as [-> | Hy];
        try congruence; apply same_below_refl.
  - intros es1 es2 es3 _ [P1 L1] _ [P2 L2]. split.
    + now transitivity (walk (Dir es2)).
    + intros c. now apply same_below_trans with (find_entry c es2).
Qed.

(** Two trees that differ in listing order only give [rglob] the same
    paths, in some order. *)
Lemma relisted_rglob (t1 t2 : node) (dir : Path) (pattern : string) :
  relisted t1 t2 ->
  Permutation (rglob t1 dir pattern) (rglob t2 dir pattern).
Proof.
  intros R. destruct relisted_walk_lookup as [H _].
  destruct (H t1 t2 R) as [_ L]. specialize (L dir). unfold rglob.
  destruct (lookup dir t1) as [n1 |], (lookup dir t2) as [n2 |];
    cbn in L; try tauto; [| constructor].
  destruct (H n1 n2 L) as [P _].
  apply Permutation_map. now apply Permutation_filter.
Qed.

(** X12: discovery does not see the listing order of the tree: two trees
    that hold the same entries and differ only in the order in which their
    directories list them give [find_files] the same list. *)
Lemma find_files_relisted (t1 t2 : node) (input : Path) (l1 l2 : list event) :
  relisted t1 t2 ->
  fst (find_files input (mkWorld t1 l1)) = fst (find_files input (mkWorld t2 l2)).
Proof.
  intros R. rewrite !find_files_run. cbn [fst fs]. f_equal.
  apply sorted_listing_order. now apply relisted_rglob.
Qed.

(** X11: what [find_files] does return: a list sorted by path, of paths below the
    input directory whose names end in the letters [svg], with every entry
    that exists below the directory under such a name. *)
Lemma find_files_contents (input : Path) (w : World) :
  let files := sorted (rglob (fs w) input "*svg") in
  fst (find_files input w) = Ret files
  /\ StronglySorted path_le files
  /\ (forall p, In p files ->
        ends_with "svg" (name p)
        /\ exists rel, p = input ++ rel /\ rel <> [])
  /\ (forall rel, rel <> [] -> path_exists (input ++ rel) (fs w) = true ->
        ends_with "svg" (name rel) -> In (input ++ rel) files).
Proof.
  cbv zeta. split; [reflexivity |]. split; [apply sorted_StronglySorted |].
  split.
  - intros p Hin. rewrite sorted_In in Hin. apply rglob_sound in Hin as [Hm Hr].
    split; [now apply fnmatch_svg | exact Hr].
  - intros rel Hne Hex Hm. rewrite sorted_In. unfold path_exists in Hex.
    destruct (lookup (input ++ rel) (fs w)) as [x |] eqn:Hl; [| discriminate].
    apply (rglob_complete _ _ _ _ x Hne Hl). now apply fnmatch_svg.
Qed.

(** * Further properties of the script *)

(** ** What a run writes to its streams *)

Lemma stdout_prints_app (l1 l2 : list event) :
  stdout_prints (l1 ++ l2) = stdout_prints l1 ++ stdout_prints l2.
Proof. apply flat_map_app. Qed.

Lemma stderr_prints_app (l1 l2 : list event) :
  stderr_prints (l1 ++ l2) = stderr_prints l1 ++ stderr_prints l2.
Proof. apply flat_map_app. Qed.

Lemma unlinked_app (l1 l2 : list event) :
  unlinked (l1 ++ l2) = unlinked l1 ++ unlinked l2.
Proof. apply flat_map_app. Qed.

Lemma calls_print_nothing (f : Path) (calls : list event) :
  Forall (call_for f) calls ->
  stdout_prints calls = [] /\ stderr_prints calls = [].
Proof.
  induction 1 as [| e calls (out & _ & [-> | ->]) _ [IH1 IH2]]; cbn; auto.
Qed.

Lemma len_app {A} (l1 l2 : list A) : len (l1 ++ l2) = (len l1 + len l2)%Z.
Proof. unfold len. rewrite length_app. lia. Qed.

(** In a stretch of conversions, [print] is called once on standard output
    for each success and once on standard error for each failure. *)
Lemma converted_in_order_prints (files : list Path) (oks : list bool)
    (seg : list event) :
  converted_in_order files oks seg ->
  len (stdout_prints seg) = count true oks
  /\ len (stderr_prints seg) = count false oks.
Proof.
  induction 1 as [| f ok calls e files oks rest Hc Hr _ [IH1 IH2]].
  - split; reflexivity.
  - destruct (calls_print_nothing f calls Hc) as [H1 H2].
    change (calls ++ e :: rest) with (calls ++ [e] ++ rest).
    rewrite !stdout_prints_app, !stderr_prints_app, H1, H2, !len_app, IH1, IH2.
    rewrite !count_cons.
    destruct ok; [rewrite Hr | destruct Hr as (msg & ->)]; cbn; split; lia.
Qed.

Section Streams.

Variable svg2png : renderer.

(** The log of a run that reaches the loop, piece by piece. *)
Lemma main_since_loop (input : Path) (w : World) :
  is_dir input (fs w) = true ->
  let files := sorted (rglob (fs w) input "*svg") in
  let results := fst (conversions svg2png files w) in
  files <> [] ->
  exists seg,
    since w (snd (main svg2png input w))
    = [ CallRglob input "*svg";
        Stdout ("Found " ++ str_int (len files) ++ " file(s) to process")%string ]
      ++ seg
      ++ summary (count true results) (count false results) (len files)
    /\ converted_in_order files results seg
    /\ fst (main svg2png input w)
       = (if (0 <? count false results)%Z then Exit 1 else Ret tt)
    /\ fs (snd (main svg2png input w)) = fs (snd (conversions svg2png files w)).
Proof.
  intros Hd files results Hne.
  rewrite main_cases, (is_dir_exists _ _ Hd), Hd. cbn [negb]. cbn zeta.
  fold files. unfold results. clearbody files.
  destruct files as [| f0 files0]; [congruence |].
  set (w2 := emit _ (emit (CallRglob input "*svg") w)).
  destruct (conversions_fs_only svg2png (f0 :: files0) w2 w eq_refl) as [Er Ef].
  destruct (conversions_log svg2png (f0 :: files0) w2) as (seg & Hl & Hc).
  rewrite Er in *. exists seg. cbn [fst snd emits fs].
  split; [| split; [exact Hc | split; [reflexivity | exact Ef]]].
  apply since_app. unfold emits. cbn [log]. rewrite Hl. unfold w2, emit.
  cbn [log]. now rewrite <- !app_assoc.
Qed.

Lemma len_nil_iff {A} (l : list A) : len l = 0%Z <-> l = [].
Proof. unfold len. destruct l; cbn; split; try congruence; lia. Qed.

(** What [main] returns or exits with, and whether it printed to standard
    error. *)
Lemma main_status_and_stderr (input : Path) (w : World) :
  (exit_status (main svg2png input w) = 0%Z
   \/ exit_status (main svg2png input w) = 1%Z)
  /\ (exit_status (main svg2png input w) = 0%Z
      <-> stderr_prints (since w (snd (main svg2png input w))) = []).
Proof.
  destruct (is_dir input (fs w)) eqn:Hd.
  - destruct (sorted (rglob (fs w) input "*svg")) as [| f0 files0] eqn:Hs.
    + rewrite main_cases, (is_dir_exists _ _ Hd), Hd, Hs. cbn [negb snd].
      erewrite since_app
        by (unfold emit; cbn [log]; rewrite <- app_assoc; reflexivity).
      cbn. split; [now left | tauto].
    + assert (Hne : sorted (rglob (fs w) input "*svg") <> [])
        by (rewrite Hs; discriminate).
      destruct (main_since_loop input w Hd Hne) as (seg & -> & Hc & Ho & _).
      destruct (converted_in_order_prints _ _ _ Hc) as [_ Hl].
      rewrite !stderr_prints_app. cbn [stderr_prints flat_map summary app].
      rewrite app_nil_r. unfold exit_status. rewrite Ho.
      rewrite <- len_nil_iff, Hl.
      pose proof (count_nonneg false
                    (fst (conversions svg2png
                            (sorted (rglob (fs w) input "*svg")) w))) as Hn.
      destruct (0 <? count false _)%Z eqn:E;
        [apply Z.ltb_lt in E | apply Z.ltb_ge in E];
        (split; [auto | split; intros; lia]).
  - rewrite main_cases, Hd.
    destruct (path_exists input (fs w)); cbn [negb snd];
      (erewrite since_app by reflexivity); cbn;
      (split; [now right | split; discriminate]).
Qed.

(** X1: the exit status of the script is 0, 1 or 2.  It is 2 exactly when
    [cairosvg] could be imported and [argparse] refused the command line;
    and it is 0 exactly when the run printed nothing to standard error: the
    import guard, a refused command line, an invalid input directory and
    every failed conversion print there, and nothing else does. *)
Theorem script_exit_status_and_stderr
    (parse_args : argument_parser) (cairosvg_installed : bool)
    (argv : list string) (w : World) :
  let r := script svg2png parse_args cairosvg_installed argv w in
  (exit_status r = 0%Z \/ exit_status r = 1%Z \/ exit_status r = 2%Z)
  /\ (exit_status r = 2%Z
      <-> cairosvg_installed = true
          /\ exists text, parse_args argv = ParseError text)
  /\ (exit_status r = 0%Z <-> stderr_prints (since w (snd r)) = []).
Proof.
  cbv zeta. destruct cairosvg_installed.
  - change (script svg2png parse_args true argv w)
      with (main_argv svg2png parse_args argv w).
    unfold main_argv. destruct (parse_args argv) as [input | text | text].
    + destruct (main_status_and_stderr input w) as [H01 Hiff].
      split; [tauto |]. split; [| exact Hiff].
      split; [intros E; destruct H01 as [H | H]; rewrite H in E; discriminate
             | intros (_ & text & Ht); discriminate].
    + unfold bind, print, sys_exit. cbn [snd].
      erewrite since_app by reflexivity. cbn.
      split; [now left |]. split; [| tauto].
      split; [discriminate | intros (_ & t & Ht); discriminate].
    + unfold bind, eprint, sys_exit. cbn [snd].
      erewrite since_app by reflexivity. cbn.
      split; [now right; right |]. split; [| split; discriminate].
      split; [intros _; split; [reflexivity | now exists text] | reflexivity].
  - unfold script, bind, eprint, sys_exit. cbn [snd].
    erewrite since_app by reflexivity. cbn.
    split; [now right; left |]. split; [| split; discriminate].
    split; [discriminate | intros (E & _); discriminate].
Qed.

End Streams.

Section Calls.

Variable svg2png : renderer.

(** X2: a run that reaches the loop calls [print] on standard error once
    per failed conversion and not otherwise, and on standard output once per
    successful conversion, once for the announcement and six times for the
    summary. *)
Theorem run_print_counts (input : Path) (w : World) :
  is_dir input (fs w) = true ->
  let files := sorted (rglob (fs w) input "*svg") in
  let results := fst (conversions svg2png files w) in
  files <> [] ->
  len (stderr_prints (since w (snd (main svg2png input w))))
  = count false results
  /\ len (stdout_prints (since w (snd (main svg2png input w))))
     = (count true results + 7)%Z.
Proof.
  intros Hd files results Hne.
  destruct (main_since_loop svg2png input w Hd Hne) as (seg & -> & Hc & _).
  destruct (converted_in_order_prints _ _ _ Hc) as [Ho He].
  rewrite !stderr_prints_app, !stdout_prints_app, !len_app.
  fold files. fold results. rewrite Ho, He.
  cbn [stderr_prints stdout_prints flat_map summary app].
  unfold len, results, files. cbn [List.length]. split; lia.
Qed.

Lemma render_call_ok_incl (files files' : list Path) (e : event) :
  incl files files' -> render_call_ok files e -> render_call_ok files' e.
Proof.
  intros Hi. destruct e; cbn; auto. intros (H1 & H2). split; auto.
Qed.

Lemma converted_in_order_calls (files : list Path) (oks : list bool)
    (seg : list event) :
  converted_in_order files oks seg ->
  Forall (render_call_ok files) seg
  /\ forall p, In p (unlinked seg) ->
               exists f, In f files /\ with_suffix f ".png" = inr p.
Proof.
  induction 1 as [| f ok calls e files oks rest Hc Hr _ [IH1 IH2]].
  - split; [constructor | intros p []].
  - assert (He : render_call_ok (f :: files) e /\ unlinked [e] = []).
    { destruct ok; [rewrite Hr | destruct Hr as (msg & ->)]; cbn; auto. }
    destruct He as [He1 He2]. split.
    + apply Forall_app. split.
      * apply (Forall_impl _ (P := call_for f)); [| exact Hc].
        intros c (out & Hout & [-> | ->]); cbn; auto.
      * constructor; [exact He1 |].
        apply (Forall_impl _ (P := render_call_ok files)); [| exact IH1].
        intros c. apply render_call_ok_incl. intros x Hx. now right.
    + intros p Hp. change (calls ++ e :: rest) with (calls ++ [e] ++ rest) in Hp.
      rewrite !unlinked_app, He2 in Hp. cbn [app] in Hp.
      apply in_app_or in Hp as [Hp | Hp].
      * exists f. split; [now left |].
        clear - Hc Hp. induction Hc as [| c calls (out & Hout & [-> | ->]) _ IH];
          cbn in Hp; [destruct Hp | | auto].
        destruct Hp as [<- | Hp]; auto.
      * destruct (IH2 p Hp) as (g & Hg & Ho). exists g. split; [now right | auto].
Qed.

Lemma rglob_not_dir (t : node) (dir : Path) (pattern : string) :
  is_dir dir t = false -> rglob t dir pattern = [].
Proof.
  unfold is_dir, rglob. destruct (lookup dir t) as [[data | es] |];
    [reflexivity | discriminate | reflexivity].
Qed.

(** The events of a run before and after its conversions are no calls. *)
Lemma main_since_cases (input : Path) (w : World) :
  let files := sorted (rglob (fs w) input "*svg") in
  exists results before seg after,
    since w (snd (main svg2png input w)) = before ++ seg ++ after
    /\ converted_in_order files results seg
    /\ Forall (render_call_ok files) before /\ unlinked before = []
    /\ Forall (render_call_ok files) after /\ unlinked after = [].
Proof.
  intros files. destruct (is_dir input (fs w)) eqn:Hd.
  - destruct files as [| f0 files0] eqn:Hs.
    + exists [], [CallRglob input "*svg";
                  Stdout ("No files found in " ++ path_str input)%string], [], [].
      unfold files in Hs.
      rewrite main_cases, (is_dir_exists _ _ Hd), Hd, Hs. cbn [negb snd].
      erewrite since_app
        by (unfold emit; cbn [log]; rewrite <- app_assoc; reflexivity).
      repeat split; repeat constructor.
    + assert (Hne : sorted (rglob (fs w) input "*svg") <> [])
        by (fold files; rewrite Hs; discriminate).
      destruct (main_since_loop svg2png input w Hd Hne) as (seg & E & Hc & _).
      fold files in E, Hc. rewrite Hs in E, Hc.
      eexists _, _, seg, _. split; [exact E |]. split; [exact Hc |].
      repeat split; repeat constructor.
  - exists [], (since w (snd (main svg2png input w))), [], [].
    unfold files. rewrite (rglob_not_dir _ _ _ Hd). cbn [sorted fold_right].
    rewrite main_cases, Hd.
    destruct (path_exists input (fs w)); cbn [negb snd];
      (erewrite since_app by reflexivity);
      repeat split; repeat constructor.
Qed.

(** X3: whatever the tree and the renderer, every call of the renderer in a
    run is for a file [find_files] returned, writes to that file's path with
    the suffix replaced by [.png], and asks for 200 by 200. *)
Theorem renderer_calls_of_a_run (input : Path) (w : World) :
  Forall (render_call_ok (sorted (rglob (fs w) input "*svg")))
         (since w (snd (main svg2png input w))).
Proof.
  destruct (main_since_cases input w)
    as (results & before & seg & after & -> & Hc & Hb & _ & Ha & _).
  destruct (converted_in_order_calls _ _ _ Hc) as [Hs _].
  rewrite !Forall_app. auto.
Qed.

End Calls.

(** ** What a run deletes and what it leaves alone *)

Lemma ends_with_nonempty (s : string) :
  ends_with "svg" s -> is_empty s = false.
Proof.
  intros (pre & ->). apply is_empty_length. rewrite append_length. cbn. lia.
Qed.

(** The output path of a discovered entry is named [*.png]; it is not a
    discovered entry itself. *)
Lemma discovered_output (t : node) (input f : Path) :
  In f (sorted (rglob t input "*svg")) ->
  with_suffix f ".png" = inr (png_path f)
  /\ suffix (png_path f) = ".png"
  /\ ~ In (png_path f) (sorted (rglob t input "*svg")).
Proof.
  intros Hin. rewrite sorted_In in Hin. apply rglob_sound in Hin as [Hm _].
  apply fnmatch_svg in Hm. pose proof (ends_with_nonempty _ Hm) as Hn.
  split; [now apply with_suffix_png_path |].
  split; [now apply png_path_suffix |].
  rewrite sorted_In. intros Hin. apply rglob_sound in Hin as [Hm' _].
  apply fnmatch_svg in Hm' as (pre & E). unfold png_path in E.
  rewrite name_snoc in E.
  change ".png" with ("." ++ "png")%string in E.
  rewrite <- string_app_assoc in E.
  apply append_inv_tail in E as [_ E]; [discriminate E | reflexivity].
Qed.

Section Deletions.

Variable svg2png : renderer.

(** X4: the only paths a run deletes are output paths: each path [unlink] is
    called on is the path of a discovered entry with its suffix replaced by
    [.png], and no discovered entry is among them. *)
Theorem unlink_targets_of_a_run (input : Path) (w : World) (p : Path) :
  In p (unlinked (since w (snd (main svg2png input w)))) ->
  exists f,
    In f (sorted (rglob (fs w) input "*svg"))
    /\ p = png_path f
    /\ suffix p = ".png"
    /\ ~ In p (sorted (rglob (fs w) input "*svg")).
Proof.
  destruct (main_since_cases svg2png input w)
    as (results & before & seg & after & -> & Hc & _ & Hb & _ & Ha).
  rewrite !unlinked_app, Hb, Ha, app_nil_r. cbn [app]. intros Hp.
  destruct (converted_in_order_calls _ _ _ Hc) as [_ Hu].
  destruct (Hu p Hp) as (f & Hf & Ho). exists f.
  destruct (discovered_output _ _ _ Hf) as (Ho' & Hs & Hn).
  rewrite Ho' in Ho. injection Ho as <-. auto.
Qed.

(** What [main] leaves on disk is what its loop leaves. *)
Lemma main_fs (input : Path) (w : World) :
  fs (snd (main svg2png input w))
  = fs (snd (conversions svg2png (sorted (rglob (fs w) input "*svg")) w)).
Proof.
  destruct (is_dir input (fs w)) eqn:Hd.
  - destruct (sorted (rglob (fs w) input "*svg")) as [| f0 files0] eqn:Hs.
    + rewrite main_cases, (is_dir_exists _ _ Hd), Hd, Hs. reflexivity.
    + rewrite <- Hs.
      assert (Hne : sorted (rglob (fs w) input "*svg") <> [])
        by (rewrite Hs; discriminate).
      now destruct (main_since_loop svg2png input w Hd Hne) as (_ & _ & _ & _ & E).
  - rewrite (rglob_not_dir _ _ _ Hd), main_cases, Hd.
    now destruct (path_exists input (fs w)).
Qed.

(** A renderer that writes its output only. *)
Hypothesis svg2png_frame : writes_only_output svg2png.

Lemma process_file_frame (f : Path) (w : World) (p : Path) :
  with_suffix f ".png" <> inr p ->
  read p (fs (snd (process_file svg2png f w))) = read p (fs w).
Proof.
  intros Hp. rewrite process_file_cases.
  destruct (with_suffix f ".png") as [msg | out] eqn:Hout; [reflexivity |].
  assert (Hne : p <> out) by congruence.
  destruct (with_suffix_png_inr _ _ Hout) as (_ & Ho & _).
  cbn zeta. destruct (path_exists out (fs w)) eqn:Hex.
  - destruct (unlink out (fs w)) as [msg | t] eqn:Hu; [reflexivity |].
    assert (Hf : is_file out (fs w) = true).
    { unfold unlink in Hu. unfold is_file.
      now destruct (lookup out (fs w)) as [[] |]. }
    destruct (unlink_file out (fs w) Ho Hf) as (t0 & Hu0 & _ & Hr & _).
    rewrite Hu in Hu0. injection Hu0 as <-.
    pose proof (svg2png_frame f out t p Hne) as Hfr.
    destruct (svg2png f out 200%Z 200%Z t) as [[msg |] t']; cbn [snd fs emit set_fs] in *;
      now rewrite Hfr, Hr.
  - pose proof (svg2png_frame f out (fs w) p Hne) as Hfr.
    destruct (svg2png f out 200%Z 200%Z (fs w)) as [[msg |] t'];
      cbn [snd fs emit set_fs] in *; exact Hfr.
Qed.

Lemma conversions_frame (files : list Path) (w : World) (p : Path) :
  (forall f, In f files -> with_suffix f ".png" <> inr p) ->
  read p (fs (snd (conversions svg2png files w))) = read p (fs w).
Proof.
  revert w. induction files as [| f files IH]; intros w H; [reflexivity |].
  cbn [conversions snd]. rewrite IH by (intros g Hg; apply H; now right).
  apply process_file_frame. apply H. now left.
Qed.

(** X5: with a renderer that changes nothing but the file it writes, a run
    changes nothing but its output paths: a path that is the output path of
    no discovered entry holds after the run what it held before, and so does
    every discovered entry. *)
Theorem run_changes_outputs_only (input : Path) (w : World) :
  let files := sorted (rglob (fs w) input "*svg") in
  (forall p, (forall f, In f files -> p <> png_path f) ->
             read p (fs (snd (main svg2png input w))) = read p (fs w))
  /\ (forall f, In f files ->
                read f (fs (snd (main svg2png input w))) = read f (fs w)).
Proof.
  intros files.
  assert (H : forall p, (forall f, In f files -> p <> png_path f) ->
              read p (fs (snd (main svg2png input w))) = read p (fs w)).
  { intros p Hp. rewrite main_fs. apply conversions_frame. intros f Hf E.
    destruct (discovered_output _ _ _ Hf) as (Ho & _).
    rewrite Ho in E. injection E as E. now apply (Hp f Hf). }
  split; [exact H |]. intros f Hf. apply H. intros g Hg ->.
  now destruct (discovered_output _ _ _ Hg) as (_ & _ & Hn).
Qed.

End Deletions.

(** ** Edge cases of one conversion *)

Lemma png_suffix_fixed (f : Path) :
  suffix f = ".png" -> with_suffix f ".png" = inr f.
Proof.
  intros Hs. pose proof (name_stem_suffix f) as E. rewrite Hs in E.
  assert (Hn : is_empty (name f) = false).
  { rewrite E. apply is_empty_length. rewrite append_length. cbn. lia. }
  assert (Hne : f <> []) by (intros ->; discriminate Hn).
  rewrite (with_suffix_png_path f Hn). unfold png_path. rewrite <- E.
  now rewrite <- (nonempty_snoc f Hne).
Qed.

Section EdgeCases.

Variable svg2png : renderer.

(** X6: when a directory stands at the output path, [unlink] raises: the
    conversion fails with the message of that error, the renderer is not
    called and the tree is left as it was. *)
Theorem conversion_blocked_by_directory (f out : Path) (w : World) :
  with_suffix f ".png" = inr out ->
  is_dir out (fs w) = true ->
  process_file svg2png f w
  = (Ret false,
     mkWorld (fs w)
       (log w ++ [ CallUnlink out;
                   Stderr (exception_line f
                             ("[Errno 21] Is a directory: " ++ quoted out)) ])).
Proof.
  intros Hout Hd. rewrite process_file_cases, Hout. cbn zeta.
  rewrite (is_dir_exists _ _ Hd). unfold unlink. unfold is_dir in Hd.
  destruct (lookup out (fs w)) as [[data | es] |]; try discriminate.
  unfold emit. cbn [fs log]. now rewrite <- app_assoc.
Qed.

(** X7: a file that is itself named [*.png] is its own output path:
    [process_file] deletes it and then hands the renderer a path at which
    there is nothing any more, as input and as output. *)
Theorem png_input_is_deleted (f : Path) (w : World) :
  suffix f = ".png" ->
  is_file f (fs w) = true ->
  exists t,
    with_suffix f ".png" = inr f
    /\ unlink f (fs w) = inr t
    /\ path_exists f t = false
    /\ process_file svg2png f w
       = (Ret (succeeded (fst (svg2png f f 200%Z 200%Z t))),
          mkWorld (snd (svg2png f f 200%Z 200%Z t))
            (log w ++ [ CallUnlink f; CallSvg2png f f 200 200;
                        report_event f (fst (svg2png f f 200%Z 200%Z t)) ])).
Proof.
  intros Hs Hf. pose proof (png_suffix_fixed f Hs) as Hout.
  destruct (process_file_existing_output svg2png f f w Hout Hf)
    as (t & Hu & Hg & _ & _ & Hp).
  exists t. auto.
Qed.

(** X8: [process_file] always returns a boolean, whatever the renderer
    does; and when it returns without having called the renderer (the path
    has no name, or the old output could not be deleted) it returns [False]
    and the tree is as it was. *)
Theorem process_file_without_renderer (f : Path) (w : World) :
  (exists ok, fst (process_file svg2png f w) = Ret ok)
  /\ (rendered (since w (snd (process_file svg2png f w))) = [] ->
      fst (process_file svg2png f w) = Ret false
      /\ fs (snd (process_file svg2png f w)) = fs w).
Proof.
  split.
  - destruct (process_file_returns svg2png f w) as (ok & w' & ->).
    exists ok. reflexivity.
  - rewrite process_file_cases.
    destruct (with_suffix f ".png") as [msg | out];
      [intros _; split; reflexivity |].
    cbn zeta. destruct (path_exists out (fs w)).
    + destruct (unlink out (fs w)) as [msg | t];
        [intros _; split; reflexivity |].
      destruct (svg2png f out 200%Z 200%Z t) as [[msg |] t'];
        cbn [snd]; unfold emit, set_fs; cbn [fs log];
        (erewrite since_app by (rewrite <- !app_assoc; reflexivity));
        discriminate.
    + destruct (svg2png f out 200%Z 200%Z (fs w)) as [[msg |] t'];
        cbn [snd]; unfold emit, set_fs; cbn [fs log];
        (erewrite since_app by (rewrite <- !app_assoc; reflexivity));
        discriminate.
Qed.

(** X9: the loop over a list in two parts is the loop over the first part
    followed by the loop over the second, which starts from the counters
    and the world the first one leaves; the results are the results of the
    parts, one after the other. *)
Theorem loop_over_concatenation (l1 l2 : list Path) (c : Z * Z) (w : World) :
  let r1 := conversions svg2png l1 w in
  for_each (l1 ++ l2) (tally svg2png) c w
  = for_each l2 (tally svg2png)
      (fst c + count true (fst r1), snd c + count false (fst r1))%Z (snd r1)
  /\ fst (conversions svg2png (l1 ++ l2) w)
     = fst r1 ++ fst (conversions svg2png l2 (snd r1)).
Proof.
  cbv zeta. split.
  - now rewrite for_each_app, for_each_tally.
  - now rewrite conversions_app.
Qed.

End EdgeCases.

(** X10: [find_files] returns the sorted arrangement of what the traversal
    lists: any list that holds the listed paths, each as often as it is
    listed, and is sorted by path, is the list returned. *)
Theorem find_files_is_the_sorted_listing (input : Path) (w : World)
    (l : list Path) :
  Permutation l (rglob (fs w) input "*svg") ->
  StronglySorted path_le l ->
  fst (find_files input w) = Ret l.
Proof.
  intros P S. rewrite find_files_run. cbn [fst]. f_equal. symmetry.
  apply StronglySorted_unique; [exact S | apply sorted_StronglySorted |].
  rewrite sorted_perm. exact P.
Qed.

(** ** The properties above on the sample trees *)

Lemma sample_writes_only_output : writes_only_output sample_svg2png.
Proof.
  intros url out t p Hp. unfold sample_svg2png.
  destruct (lookup url t) as [[data | es] |]; try reflexivity.
  destruct (prefix "<svg" data); [| reflexivity].
  destruct (write_file out "PNG" t) as [t' |] eqn:Hw; [| reflexivity].
  destruct (write_file_spec _ _ _ _ Hw) as (_ & Hk & _). now apply Hk.
Qed.

Lemma script_exit_status_and_stderr_witness :
  (exit_status (script sample_svg2png sample_parse_args true ["docs"]
                  (start sample_tree)) = 0%Z
   /\ stderr_prints
        (since (start sample_tree)
           (snd (script sample_svg2png sample_parse_args true ["docs"]
                   (start sample_tree)))) = [])
  /\ exit_status (script sample_svg2png sample_parse_args true []
                    (start sample_tree)) = 2%Z
  /\ exit_status (script sample_svg2png sample_parse_args true ["mixed"]
                    (start sample_tree)) <> 0%Z
  /\ exit_status (script sample_svg2png sample_parse_args false ["-h"]
                    (start sample_tree)) <> 2%Z.
Proof.
  destruct (script_exit_status_and_stderr sample_svg2png sample_parse_args
              true ["docs"] (start sample_tree)) as (_ & _ & H1 & H1').
  destruct (script_exit_status_and_stderr sample_svg2png sample_parse_args
              true [] (start sample_tree)) as (_ & [_ H2] & _).
  destruct (script_exit_status_and_stderr sample_svg2png sample_parse_args
              true ["mixed"] (start sample_tree)) as (_ & _ & H3 & _).
  destruct (script_exit_status_and_stderr sample_svg2png sample_parse_args
              false ["-h"] (start sample_tree)) as (_ & [H4 _] & _).
  refine (conj (conj (H1' eq_refl) (H1 (H1' eq_refl))) (conj _ (conj _ _))).
  - apply H2. split; [reflexivity |].
    exists "error: the following arguments are required: input". reflexivity.
  - intros E. specialize (H3 E). vm_compute in H3. discriminate H3.
  - intros E. destruct (H4 E) as [E' _]. discriminate E'.
Defined.

Lemma run_print_counts_witness :
  len (stderr_prints
         (since (start sample_tree)
            (snd (main sample_svg2png ["mixed"] (start sample_tree))))) = 1%Z
  /\ len (stdout_prints
            (since (start sample_tree)
               (snd (main sample_svg2png ["mixed"] (start sample_tree))))) = 9%Z.
Proof.
  assert (Hd : is_dir ["mixed"] (fs (start sample_tree)) = true) by reflexivity.
  assert (Hne : sorted (rglob (fs (start sample_tree)) ["mixed"] "*svg") <> [])
    by (vm_compute; discriminate).
  destruct (run_print_counts sample_svg2png ["mixed"] (start sample_tree) Hd Hne)
    as [H1 H2].
  split; [exact (eq_trans H1 eq_refl) | exact (eq_trans H2 eq_refl)].
Defined.

Lemma unlink_targets_of_a_run_witness :
  In ["mixed"; "m.png"]
     (unlinked (since (start sample_tree)
                  (snd (main sample_svg2png ["mixed"] (start sample_tree)))))
  /\ ~ In ["mixed"; "m.png"] (sorted (rglob sample_tree ["mixed"] "*svg")).
Proof.
  assert (H : In ["mixed"; "m.png"]
                (unlinked (since (start sample_tree)
                             (snd (main sample_svg2png ["mixed"]
                                     (start sample_tree))))))
    by (vm_compute; auto).
  split; [exact H |].
  destruct (unlink_targets_of_a_run sample_svg2png ["mixed"] (start sample_tree)
              ["mixed"; "m.png"] H) as (f & _ & _ & _ & Hn).
  exact Hn.
Defined.

Lemma run_changes_outputs_only_witness :
  read ["good"; "a.svg"]
       (fs (snd (main sample_svg2png ["good"] (start sample_tree))))
  = Some "<svg><circle/></svg>"
  /\ read ["notes.txt"]
          (fs (snd (main sample_svg2png ["good"] (start sample_tree))))
     = Some "text".
Proof.
  destruct (run_changes_outputs_only sample_svg2png sample_writes_only_output
              ["good"] (start sample_tree)) as [H1 H2].
  split.
  - rewrite H2; [reflexivity | vm_compute; auto].
  - rewrite H1; [reflexivity |].
    intros f Hf. vm_compute in Hf. destruct Hf as [<- | [<- | []]]; discriminate.
Defined.

Lemma conversion_blocked_by_directory_witness :
  fst (process_file sample_svg2png ["d"; "a.svg"] (start blocked_tree))
  = Ret false
  /\ fs (snd (process_file sample_svg2png ["d"; "a.svg"] (start blocked_tree)))
     = blocked_tree
  /\ rendered (log (snd (process_file sample_svg2png ["d"; "a.svg"]
                           (start blocked_tree)))) = [].
Proof.
  rewrite (conversion_blocked_by_directory sample_svg2png
             ["d"; "a.svg"] ["d"; "a.png"] (start blocked_tree)
             eq_refl eq_refl).
  refine (conj eq_refl (conj eq_refl eq_refl)).
Defined.

Lemma png_input_is_deleted_witness :
  read ["good"; "a.png"] sample_tree = Some "previous"
  /\ fst (process_file sample_svg2png ["good"; "a.png"] (start sample_tree))
     = Ret false
  /\ path_exists ["good"; "a.png"]
       (fs (snd (process_file sample_svg2png ["good"; "a.png"]
                   (start sample_tree)))) = false.
Proof.
  split; [reflexivity |].
  destruct (png_input_is_deleted sample_svg2png ["good"; "a.png"]
              (start sample_tree) eq_refl eq_refl) as (t & _ & Hu & _ & Hp).
  vm_compute in Hu. injection Hu as <-.
  rewrite Hp. refine (conj eq_refl eq_refl).
Defined.

Lemma process_file_without_renderer_witness :
  rendered (since (start blocked_tree)
              (snd (process_file sample_svg2png ["d"; "a.svg"]
                      (start blocked_tree)))) = []
  /\ fs (snd (process_file sample_svg2png ["d"; "a.svg"] (start blocked_tree)))
     = fs (start blocked_tree).
Proof.
  assert (H : rendered (since (start blocked_tree)
                          (snd (process_file sample_svg2png ["d"; "a.svg"]
                                  (start blocked_tree)))) = []) by reflexivity.
  split; [exact H |].
  destruct (process_file_without_renderer sample_svg2png ["d"; "a.svg"]
              (start blocked_tree)) as [_ Hn].
  exact (proj2 (Hn H)).
Defined.

Lemma find_files_is_the_sorted_listing_witness :
  fst (find_files ["mixed"] (start sample_tree))
  = Ret [["mixed"; "m.svg"]; ["mixed"; "sub"; "k.svg"]; ["mixed"; "z.svg"]].
Proof.
  apply find_files_is_the_sorted_listing.
  - change (rglob (fs (start sample_tree)) ["mixed"] "*svg")
      with ([["mixed"; "z.svg"]]
            ++ [["mixed"; "m.svg"]; ["mixed"; "sub"; "k.svg"]]).
    apply Permutation_sym.
    apply (Permutation_cons_append
             [["mixed"; "m.svg"]; ["mixed"; "sub"; "k.svg"]] ["mixed"; "z.svg"]).
  - repeat constructor.
Defined.

Lemma find_files_contents_witness :
  In ["mixed"; "sub"; "k.svg"] (sorted (rglob sample_tree ["mixed"] "*svg"))
  /\ ends_with "svg" (name ["mixed"; "m.svg"]).
Proof.
  destruct (find_files_contents ["mixed"] (start sample_tree))
    as (_ & _ & Hs & Hc).
  split.
  - apply (Hc ["sub"; "k.svg"]); [discriminate | reflexivity |].
    exists "k.". reflexivity.
  - apply (Hs ["mixed"; "m.svg"]). vm_compute. auto.
Defined.

Lemma find_files_relisted_witness :
  rglob listing_ab ["d"] "*svg" <> rglob listing_ba ["d"] "*svg"
  /\ fst (find_files ["d"] (start listing_ab))
     = fst (find_files ["d"] (start listing_ba)).
Proof.
  split; [vm_compute; discriminate |].
  apply find_files_relisted.
  apply relisted_dir. apply relisted_skip; [| apply relisted_nil].
  apply relisted_dir. apply relisted_swap. cbn. discriminate.
Defined.

Lemma main_no_files_witness :
  exit_status (main sample_svg2png ["docs"] (start sample_tree)) = 0%Z
  /\ fs (snd (main sample_svg2png ["docs"] (start sample_tree))) = sample_tree.
Proof.
  rewrite (main_no_files sample_svg2png ["docs"] (start sample_tree)
             eq_refl eq_refl).
  refine (conj eq_refl eq_refl).
Defined.
